(** * TextDataset: a shallow embedding of [src/dataset.py]

    The Python class [TextDataset] splits a table of labelled texts into a
    train, a validation and a test partition, normalises the text of a row,
    hands it to a vectorizer and serves rows one by one or in batches.

    Python values are modelled as follows.
    - [str]: [string]; a character is a code point below 256 (Latin-1), which
      covers ASCII. [len] of a [str] is [String.length].
    - [pandas.DataFrame] with the columns [text] and [label]: the list of its
      rows in positional order, each row carrying its index label.
    - [dict] with [str] keys: [gmap string _]; [set] of [str]: [gset string].
    - an exception: [Raise e] in the [Result] type.
    - the libraries' own state: a [RandomState] that hands out one
      permutation per request (numpy's generator for the splits, torch's for
      the sampler) and knows the devices torch can move a tensor to. *)

From Stdlib Require Import ZArith QArith Qround Ascii String.
From stdpp Require Import base tactics option list gmap strings.

Open Scope Z_scope.

(** ** Exceptions and results *)

(** The exceptions that leave the class, under the names the specification
    gives their kinds. *)
Inductive error : Type :=
  | ValueError                      (* sklearn: bad split sizes; torch: bad batch size *)
  | ResourceUnavailable             (* nltk: the stopword corpus cannot be read *)
  | InvalidSplit (split : string)   (* KeyError of [self._lookup_dict[split]] *)
  | IndexOutOfRange                 (* IndexError of [DataFrame.iloc] *)
  | UnknownLabel (label : string)   (* raised by [label_vocab.lookup_token] *)
  | RuntimeError.                   (* torch: the device is unknown or not available *)

Inductive Result (A : Type) : Type :=
  | Ok (a : A)
  | Raise (e : error).
Arguments Ok {A} a.
Arguments Raise {A} e.

(** [Result] is an exception monad; [x ← m; k] runs [k] unless [m] raised. *)
Global Instance Result_ret : MRet Result := λ A a, Ok a.
Global Instance Result_bind : MBind Result := λ A B k m,
  match m with
  | Ok a => k a
  | Raise e => Raise e
  end.

Definition is_Ok {A} (m : Result A) : bool :=
  match m with Ok _ => true | Raise _ => false end.

(** ** Python [str] on code points below 256 *)

Definition code (c : ascii) : N := N_of_ascii c.

Definition in_range (lo hi : N) (c : ascii) : bool :=
  ((lo <=? code c) && (code c <=? hi))%N.

(** [str.isspace] for one character, which is also what [\s] matches and
    where [str.split()] cuts: tab to carriage return, the four separators
    U+001C to U+001F, the space, NEL (U+0085) and the no-break space. *)
Definition isspace (c : ascii) : bool :=
  in_range 9 13 c || in_range 28 32 c || in_range 133 133 c || in_range 160 160 c.

(** [str.isalnum] for one character: digits and letters of ASCII, and in the
    upper half the ordinal indicators, the micro sign, the superscript digits,
    the vulgar fractions and the accented letters. *)
Definition isalnum (c : ascii) : bool :=
  in_range 48 57 c || in_range 65 90 c || in_range 97 122 c
  || in_range 170 170 c || in_range 178 179 c || in_range 181 181 c
  || in_range 185 186 c || in_range 188 190 c
  || in_range 192 214 c || in_range 216 246 c || in_range 248 255 c.

(** What [\w] matches: an alphanumeric character or the underscore. *)
Definition is_word (c : ascii) : bool :=
  isalnum c || in_range 95 95 c.

(** [str.lower] on one character: [A-Z] and the capital accented letters
    (U+00C0 to U+00DE without the multiplication sign) move up by 32. *)
Definition lower_char (c : ascii) : ascii :=
  if in_range 65 90 c || in_range 192 214 c || in_range 216 222 c
  then ascii_of_N (code c + 32)
  else c.

Fixpoint lower (s : string) : string :=
  match s with
  | EmptyString => EmptyString
  | String c s' => String (lower_char c) (lower s')
  end.

(** [re.sub(pattern, repl, s)] for a pattern that is one character class:
    every character the class matches is replaced by [repl], from left to
    right. *)
Fixpoint re_sub (class : ascii → bool) (repl : string) (s : string) : string :=
  match s with
  | EmptyString => EmptyString
  | String c s' =>
      if class c then repl +:+ re_sub class repl s'
      else String c (re_sub class repl s')
  end.

(** The class [[^\w\s]]. *)
Definition not_word_nor_space (c : ascii) : bool :=
  negb (is_word c || isspace c).

(** [s.split()] without arguments: the scan keeps the token it is in ([cur],
    empty between tokens) and cuts at every whitespace character; empty
    tokens are never produced. *)
Definition emit (cur : string) : list string :=
  match cur with
  | EmptyString => []
  | _ => [cur]
  end.

Fixpoint split_go (cur : string) (s : string) : list string :=
  match s with
  | EmptyString => emit cur
  | String c s' =>
      if isspace c then emit cur ++ split_go EmptyString s'
      else split_go (cur +:+ String c EmptyString) s'
  end.

Definition split (s : string) : list string := split_go EmptyString s.

(** [sep.join(l)]. *)
Fixpoint join (sep : string) (l : list string) : string :=
  match l with
  | [] => EmptyString
  | x :: l' =>
      match l' with
      | [] => x
      | _ :: _ => x +:+ sep +:+ join sep l'
      end
  end.

(** ** Text normalisation: [TextDataset.__string_processing] *)

(** The method reads [self._stopwords] and nothing else of the object, so the
    model takes the stopword set in place of [self]. *)
Definition __string_processing (_stopwords : gset string) (string0 : string) : string :=
  let string1 := lower string0 in
  let string2 := re_sub not_word_nor_space "" string1 in
  join " " (filter (λ w, w ∉ _stopwords) (split string2)).

(** ** The table of records: [pandas.DataFrame] *)

(** A row of the table: its index label (which every selection of rows keeps)
    and the two columns the class reads. *)
Record Row : Type := {
  index : nat;
  text : string;
  label : string
}.

Global Instance Row_eq_dec : EqDecision Row.
Proof. solve_decision. Defined.

(** The table that [pd.read_csv] returns, given by the rows it loaded, in
    file order: pandas numbers them with a fresh [RangeIndex]. [records] are
    the cells as loaded, not the characters of the file: what pandas makes of
    a cell (an empty cell or an NA marker such as "NA" is loaded as NaN, a
    column of numerals as numbers) happens before, and a table with such
    cells is no table of [Row]s, whose two columns hold strings. *)
Definition read_csv (records : list (string * string)) : list Row :=
  imap (λ i r, {| index := i; text := r.1; label := r.2 |}) records.

(** [df.iloc[i]] for an integer [i]: positions count from the end when [i] is
    negative, and anything outside [-len(df) <= i < len(df)] raises
    IndexError. *)
Definition iloc (df : list Row) (i : Z) : Result Row :=
  let n := Z.of_nat (length df) in
  if (n <=? i) || (i <? - n) then Raise IndexOutOfRange
  else
    let k := if i <? 0 then i + n else i in
    match df !! Z.to_nat k with
    | Some row => Ok row
    | None => Raise IndexOutOfRange
    end.

(** [df.text.str.len().max()]: [None] stands for the NaN that the maximum of
    an empty column is. *)
Definition str_len_max (df : list Row) : option nat :=
  match df with
  | [] => None
  | row :: rest =>
      Some (foldl (λ m r, Nat.max m (String.length (text r)))
                  (String.length (text row)) rest)
  end.

(** ** Randomness *)

(** The state of the libraries behind the class: the permutation of
    [range(n)] that each request to a random generator will return, how many
    requests were served, and the devices of the machine, that is the device
    strings that [Tensor.to] accepts; "cpu" is always one of them. *)
Record RandomState : Type := {
  draws : nat → nat → list nat;
  served : nat;
  draws_perm : ∀ k n, draws k n ≡ₚ seq 0 n;
  devices : gset string;
  cpu_device : "cpu" ∈ devices
}.

Definition permutation (rs : RandomState) (n : nat) : list nat * RandomState :=
  (draws rs (served rs) n,
   {| draws := draws rs; served := S (served rs); draws_perm := draws_perm rs;
      devices := devices rs; cpu_device := cpu_device rs |}).

(** ** [sklearn.model_selection.train_test_split] *)

(** The float [test_size] is modelled by the rational it denotes. For 0.2 and
    0.25 and every table of fewer than 2^50 rows the rounded product
    [test_size * n_samples] has the ceiling of the exact product, so the
    sizes below are the ones the library computes. *)
Definition _validate_shuffle_split (n_samples : nat) (test_size : Q) : Result (nat * nat) :=
  if Qle_bool test_size 0 || Qle_bool 1 test_size then Raise ValueError
  else
    let n_test := Z.to_nat (Qceiling (test_size * inject_Z (Z.of_nat n_samples))) in
    let n_train := (n_samples - n_test)%nat in
    if (n_train =? 0)%nat then Raise ValueError
    else Ok (n_train, n_test).

(** Selecting rows by position, in the order of [indices]. *)
Fixpoint _safe_indexing {A} (X : list A) (indices : list nat) : Result (list A) :=
  match indices with
  | [] => Ok []
  | i :: rest =>
      match X !! i with
      | None => Raise IndexOutOfRange
      | Some x => xs ← _safe_indexing X rest; Ok (x :: xs)
      end
  end.

(** [train_test_split(arrays, test_size=...)] with the default [shuffle=True]:
    the first [n_test] positions of a random permutation go to the test part
    and the next [n_train] to the train part. *)
Definition train_test_split {A} (arrays : list A) (test_size : Q) (rs : RandomState)
    : Result (list A * list A) * RandomState :=
  match _validate_shuffle_split (length arrays) test_size with
  | Raise e => (Raise e, rs)
  | Ok (n_train, n_test) =>
      let '(perm, rs') := permutation rs (length arrays) in
      let ind_test := take n_test perm in
      let ind_train := take n_train (drop n_test perm) in
      (train ← _safe_indexing arrays ind_train;
       test ← _safe_indexing arrays ind_test;
       Ok (train, test), rs')
  end.

(** ** The vectorizer *)

Definition Vector : Type := list Z.

(** Modelled from the spec: [vectorizer.py] is not among the sources. The
    vectorizer maps a cleaned text to a numeric vector and owns a label
    vocabulary, a mapping from label strings to integer indices. *)
Record TextVectorizer : Type := {
  vectorize : string → Vector;
  label_vocab : gmap string Z
}.

(** Modelled from the spec: [label_vocab.lookup_token(label)] returns the
    index of the label and fails with UnknownLabel when the label is absent. *)
Definition lookup_token (vocab : gmap string Z) (token : string) : Result Z :=
  match vocab !! token with
  | Some i => Ok i
  | None => Raise (UnknownLabel token)
  end.

(** ** The class [TextDataset] *)

(** The attributes of an instance. [_lookup_dict] maps a split name to the
    pair of its table and its row count. *)
Record TextDataset : Type := {
  _vectorizer : TextVectorizer;
  _train_data : list Row;
  _val_data : list Row;
  _test_data : list Row;
  _stopwords : gset string;
  _lookup_dict : gmap string (list Row * nat);
  _target_split : string;
  _target_data : list Row;
  _target_size : nat
}.

Definition with_target_split (split : string) (self : TextDataset) : TextDataset :=
  {| _vectorizer := _vectorizer self;
     _train_data := _train_data self;
     _val_data := _val_data self;
     _test_data := _test_data self;
     _stopwords := _stopwords self;
     _lookup_dict := _lookup_dict self;
     _target_split := split;
     _target_data := _target_data self;
     _target_size := _target_size self |}.

Definition with_target (data : list Row) (size : nat) (self : TextDataset) : TextDataset :=
  {| _vectorizer := _vectorizer self;
     _train_data := _train_data self;
     _val_data := _val_data self;
     _test_data := _test_data self;
     _stopwords := _stopwords self;
     _lookup_dict := _lookup_dict self;
     _target_split := _target_split self;
     _target_data := data;
     _target_size := size |}.

(** [set_split]: the name is stored first, then the dictionary is read; a
    name that is no key raises and leaves the table and the size as they
    were. The second component is the object after the call. *)
Definition set_split (split : string) (self : TextDataset) : Result () * TextDataset :=
  let self := with_target_split split self in
  match _lookup_dict self !! split with
  | None => (Raise (InvalidSplit split), self)
  | Some (data, size) => (Ok (), with_target data size self)
  end.

(** [__init__]. [corpus] is the stopword resource of nltk, one word list per
    language. The two splits come first, so their errors win over a missing
    language. The target attributes do not exist before [set_split('train')]
    has run; the record holds empty ones until then. *)
Definition __init__ (text_data : list Row) (vectorizer : TextVectorizer)
    (language : string) (corpus : gmap string (list string)) (rs : RandomState)
    : Result TextDataset * RandomState :=
  match train_test_split text_data (1 # 5) rs with
  | (Raise e, rs) => (Raise e, rs)
  | (Ok (train_data, test_data), rs) =>
      match train_test_split train_data (1 # 4) rs with
      | (Raise e, rs) => (Raise e, rs)
      | (Ok (train_data, val_data), rs) =>
          match corpus !! language with
          | None => (Raise ResourceUnavailable, rs)
          | Some words =>
              let self :=
                {| _vectorizer := vectorizer;
                   _train_data := train_data;
                   _val_data := val_data;
                   _test_data := test_data;
                   _stopwords := list_to_set words;
                   _lookup_dict :=
                     {[ "train" := (train_data, length train_data);
                        "val" := (val_data, length val_data);
                        "test" := (test_data, length test_data) ]};
                   _target_split := "";
                   _target_data := [];
                   _target_size := 0 |} in
              match set_split "train" self with
              | (Raise e, _) => (Raise e, rs)
              | (Ok _, self) => (Ok self, rs)
              end
          end
      end
  end.

Definition __len__ (self : TextDataset) : nat := _target_size self.

(** The dictionary [{'x_data': ..., 'y_target': ...}] that [__getitem__]
    returns. *)
Record Item : Type := {
  x_data : Vector;
  y_target : Z
}.

Definition __getitem__ (self : TextDataset) (index : Z) : Result Item :=
  row ← iloc (_target_data self) index;
  let row_text := __string_processing (_stopwords self) (text row) in
  let text_vector := vectorize (_vectorizer self) row_text in
  label_index ← lookup_token (label_vocab (_vectorizer self)) (label row);
  Ok {| x_data := text_vector; y_target := label_index |}.

(** ** Batches: [torch.utils.data.DataLoader] *)

(** A tensor that stacks one value per sample, and the device it is on. *)
Record Tensor (A : Type) : Type := {
  values : list A;
  device : string
}.
Arguments values {A} _.
Arguments device {A} _.

(** [t.to(device)]: the tensor on the device, or RuntimeError when the
    device string names no device of the machine. *)
Definition to {A} (available : gset string) (dev : string) (t : Tensor A)
    : Result (Tensor A) :=
  if decide (dev ∈ available) then Ok {| values := values t; device := dev |}
  else Raise RuntimeError.

(** A batch: the dictionary with one tensor under each key of an item. *)
Record Batch : Type := {
  x_data_batch : Tensor Vector;
  y_target_batch : Tensor Z
}.

Definition default_collate (items : list Item) : Batch :=
  {| x_data_batch := {| values := x_data <$> items; device := "cpu" |};
     y_target_batch := {| values := y_target <$> items; device := "cpu" |} |}.

(** The inner loop of [generate_batches]: every tensor of the dictionary is
    moved to the device, in the order of the keys. *)
Definition move_to (available : gset string) (dev : string) (data_dict : Batch)
    : Result Batch :=
  x ← to available dev (x_data_batch data_dict);
  y ← to available dev (y_target_batch data_dict);
  Ok {| x_data_batch := x; y_target_batch := y |}.

(** The order of the samples: [RandomSampler] or [SequentialSampler]. *)
Definition sampler (shuffle : bool) (n : nat) (rs : RandomState) : list nat * RandomState :=
  if shuffle then permutation rs n else (seq 0 n, rs).

(** [BatchSampler.__iter__]: indices are appended to [batch]; a full batch is
    yielded and a new one started; what is left at the end is yielded unless
    [drop_last]. *)
Fixpoint BatchSampler (batch_size : nat) (drop_last : bool) (batch : list nat)
    (indices : list nat) : list (list nat) :=
  match indices with
  | [] => if (0 <? length batch)%nat && negb drop_last then [batch] else []
  | idx :: rest =>
      let batch := batch ++ [idx] in
      if (length batch =? batch_size)%nat
      then batch :: BatchSampler batch_size drop_last [] rest
      else BatchSampler batch_size drop_last batch rest
  end.

(** [[dataset[idx] for idx in batch]]. *)
Fixpoint fetch (self : TextDataset) (batch : list nat) : Result (list Item) :=
  match batch with
  | [] => Ok []
  | idx :: rest =>
      item ← __getitem__ self (Z.of_nat idx);
      items ← fetch self rest;
      Ok (item :: items)
  end.

(** What a generator did: the values it yielded, and the exception that
    ended it, if one did. *)
Definition Yielded (A : Type) : Type := list A * option error.

(** The loop of [generate_batches] over the batches of the loader: the
    items of a batch are fetched and collated by the loader, then moved to
    the device, then yielded. *)
Fixpoint yield_batches (available : gset string) (self : TextDataset) (dev : string)
    (batches : list (list nat)) : Yielded Batch :=
  match batches with
  | [] => ([], None)
  | batch :: rest =>
      match fetch self batch with
      | Raise e => ([], Some e)
      | Ok items =>
          let data_dict := default_collate items in
          match move_to available dev data_dict with
          | Raise e => ([], Some e)
          | Ok out_data_dict =>
              let '(more, stop) := yield_batches available self dev rest in
              (out_data_dict :: more, stop)
          end
      end
  end.

(** [generate_batches], run to its end. A batch size that is not positive
    is refused by the loader. *)
Definition generate_batches (self : TextDataset) (batch_size : Z) (shuffle drop_last : bool)
    (dev : string) (rs : RandomState) : Yielded Batch * RandomState :=
  if batch_size <=? 0 then (([], Some ValueError), rs)
  else
    let '(order, rs) := sampler shuffle (__len__ self) rs in
    (yield_batches (devices rs) self dev
       (BatchSampler (Z.to_nat batch_size) drop_last [] order), rs).

(** ** The factory [load_dataset_and_make_vectorizer] *)

(** The sequence length handed to the vectorizer: the longest text, or 359
    when that is more than 1000. A NaN compares false and stays. *)
Definition seq_len_bound (text_data : list Row) : option nat :=
  let seq_len := str_len_max text_data in
  if (match seq_len with Some m => (1000 <? m)%nat | None => false end)
  then Some 359%nat
  else seq_len.

Section Factory.
(** [TextVectorizer.from_dataframe(text_data, mode=..., seq_len=...)] of the
    absent [vectorizer.py]. *)
Variable from_dataframe : list Row → string → option nat → TextVectorizer.

(** [text_csv] stands for the rows that [pd.read_csv] loaded from the file
    at that path, each a text and a label (see [read_csv]); the language of
    the stopwords is the default of [__init__]. *)
Definition load_dataset_and_make_vectorizer (text_csv : list (string * string))
    (vectorizer_mode : string) (corpus : gmap string (list string)) (rs : RandomState)
    : Result TextDataset * RandomState :=
  let text_data := read_csv text_csv in
  let seq_len := seq_len_bound text_data in
  __init__ text_data (from_dataframe text_data vectorizer_mode seq_len)
           "english" corpus rs.
End Factory.

(** ** Sequences of calls on an instance *)

Inductive call : Type :=
  | call_set_split (split : string)
  | call_len
  | call_getitem (index : Z)
  | call_generate_batches (batch_size : Z) (shuffle drop_last : bool) (dev : string).

Inductive answer : Type :=
  | answer_set_split (r : Result ())
  | answer_len (n : nat)
  | answer_getitem (r : Result Item)
  | answer_batches (y : Yielded Batch).

Definition run_call (c : call) (st : TextDataset * RandomState)
    : answer * (TextDataset * RandomState) :=
  let '(self, rs) := st in
  match c with
  | call_set_split split =>
      let '(r, self) := set_split split self in (answer_set_split r, (self, rs))
  | call_len => (answer_len (__len__ self), (self, rs))
  | call_getitem index => (answer_getitem (__getitem__ self index), (self, rs))
  | call_generate_batches batch_size shuffle drop_last dev =>
      let '(y, rs) := generate_batches self batch_size shuffle drop_last dev rs in
      (answer_batches y, (self, rs))
  end.

Fixpoint run_calls (cs : list call) (st : TextDataset * RandomState)
    : list answer * (TextDataset * RandomState) :=
  match cs with
  | [] => ([], st)
  | c :: cs =>
      let '(a, st) := run_call c st in
      let '(answers, st) := run_calls cs st in
      (a :: answers, st)
  end.

(** ** Normalisation as the specification words it *)

(** "Strip all characters that are not word characters or whitespace." *)
Fixpoint keep_chars (P : ascii → bool) (s : string) : string :=
  match s with
  | EmptyString => EmptyString
  | String c s' => if P c then String c (keep_chars P s') else keep_chars P s'
  end.

(** The pieces of a string between its whitespace characters, empty pieces
    included; the tokens are the pieces that are not empty. *)
Fixpoint fields (s : string) : list string :=
  match s with
  | EmptyString => [EmptyString]
  | String c s' =>
      if isspace c then EmptyString :: fields s'
      else
        match fields s' with
        | [] => [String c EmptyString]
        | f :: fs => String c f :: fs
        end
  end.

Definition tokens (s : string) : list string :=
  filter (λ f, f ≠ EmptyString) (fields s).

(** "Lowercase, strip all characters that are not word characters or
    whitespace, remove tokens present in the stopword set, rejoin with single
    spaces." *)
Definition normalize_spec (stopwords : gset string) (s : string) : string :=
  let kept := keep_chars (λ c, is_word c || isspace c) (lower s) in
  join " " (filter (λ w, w ∉ stopwords) (tokens kept)).

(** Every character of a string has a property. *)
Fixpoint all_chars (P : ascii → Prop) (s : string) : Prop :=
  match s with
  | EmptyString => True
  | String c s' => P c ∧ all_chars P s'
  end.

(** A character of a normalised token: no whitespace, a word character, and
    left alone by [lower]. *)
Definition settled (c : ascii) : Prop :=
  isspace c = false ∧ is_word c = true ∧ lower_char c = c.

(** "The maximum text length over the loaded records." *)
Definition is_max_text_length (records : list (string * string)) (m : nat) : Prop :=
  (∃ r, r ∈ records ∧ String.length r.1 = m)
  ∧ ∀ r, r ∈ records → (String.length r.1 ≤ m)%nat.

(** ** Consistency of an instance *)

(** What [__init__] establishes and every method keeps: the dictionary holds
    the three partitions with their row counts, and the target size is the
    row count of the target table. *)
Definition consistent (self : TextDataset) : Prop :=
  _lookup_dict self =
    {[ "train" := (_train_data self, length (_train_data self));
       "val" := (_val_data self, length (_val_data self));
       "test" := (_test_data self, length (_test_data self)) ]}
  ∧ _target_size self = length (_target_data self).

(** An instance: what [__init__] returned, after any calls of its methods. *)
Definition is_instance (self : TextDataset) : Prop :=
  ∃ text_data vectorizer language corpus rs self0 rs0 calls rs1,
    __init__ text_data vectorizer language corpus rs = (Ok self0, rs0)
    ∧ (run_calls calls (self0, rs0)).2 = (self, rs1).

(** Two states of an object agree on everything but the target attributes. *)
Definition same_contents (a b : TextDataset) : Prop :=
  _vectorizer a = _vectorizer b
  ∧ _train_data a = _train_data b
  ∧ _val_data a = _val_data b
  ∧ _test_data a = _test_data b
  ∧ _stopwords a = _stopwords b
  ∧ _lookup_dict a = _lookup_dict b.

(** Every label of the active split is in the label vocabulary. *)
Definition labels_known (self : TextDataset) : Prop :=
  Forall (λ row, is_Some (label_vocab (_vectorizer self) !! label row))
         (_target_data self).

(** [items] are what [__getitem__] returns at the positions [batch]. *)
Definition fetched (self : TextDataset) (batch : list nat) (items : list Item) : Prop :=
  Forall2 (λ idx item, __getitem__ self (Z.of_nat idx) = Ok item) batch items.

(** The batch that the generator yields for the items of one chunk, once
    its tensors are on the device. *)
Definition batch_on (dev : string) (items : list Item) : Batch :=
  {| x_data_batch := {| values := x_data <$> items; device := dev |};
     y_target_batch := {| values := y_target <$> items; device := dev |} |}.

(** How many samples each batch of a list holds. *)
Definition batch_sizes (batches : list Batch) : list nat :=
  (λ b, length (values (x_data_batch b))) <$> batches.

(** The partition a split name stands for. *)
Definition partition (self : TextDataset) (split : string) : option (list Row) :=
  if decide (split = "train") then Some (_train_data self)
  else if decide (split = "val") then Some (_val_data self)
  else if decide (split = "test") then Some (_test_data self)
  else None.

(** Two tables share no row: no index label occurs in both. *)
Definition disjoint_rows (a b : list Row) : Prop :=
  ∀ r r', r ∈ a → r' ∈ b → index r ≠ index r'.

(** The sizes of a 60/20/20 split of [n] rows, taken exactly. *)
Definition exactly_60_20_20 (n train val test : nat) : Prop :=
  (5 * train = 3 * n ∧ 5 * val = n ∧ 5 * test = n)%nat.

(** ** A small instance to run the definitions on *)

(** A machine without accelerator, whose generators always return the
    reversal. *)
Definition reversing : RandomState :=
  {| draws := λ _ n, reverse (seq 0 n);
     served := 0;
     draws_perm := λ _ n, reverse_Permutation (seq 0 n);
     devices := {["cpu"]};
     cpu_device := proj2 (elem_of_singleton "cpu" "cpu") eq_refl |}.

Definition reviews : list (string * string) :=
  [ ("The Quick, FOX!! jumps", "pos"); ("It was bad", "neg");
    ("Not good at all", "neg"); ("Loved it", "pos");
    ("A fine film", "pos"); ("Dull and slow", "neg");
    ("What a ride", "pos") ].

Definition english : gmap string (list string) :=
  {[ "english" := ["the"; "a"; "it"; "was"; "and"; "at"; "all"; "what"; "not"] ]}.

(** A vectorizer that counts the characters of a text and knows both labels. *)
Definition counting : TextVectorizer :=
  {| vectorize := λ s, [Z.of_nat (String.length s)];
     label_vocab := {[ "neg" := 0; "pos" := 1 ]} |}.

(** The same with a vocabulary that lacks "neg". *)
Definition positive_only : TextVectorizer :=
  {| vectorize := λ s, [Z.of_nat (String.length s)];
     label_vocab := {[ "pos" := 1 ]} |}.

Definition blank (vectorizer : TextVectorizer) : TextDataset :=
  {| _vectorizer := vectorizer; _train_data := []; _val_data := [];
     _test_data := []; _stopwords := ∅; _lookup_dict := ∅;
     _target_split := ""; _target_data := []; _target_size := 0 |}.

(** The instance that [__init__] returns for a file of records, with the
    reversing generator ([blank] if it raised). *)
Definition built (records : list (string * string)) (vectorizer : TextVectorizer)
    : TextDataset :=
  match (__init__ (read_csv records) vectorizer "english" english reversing).1 with
  | Ok self => self
  | Raise _ => blank vectorizer
  end.

(** Seven rows, split 3/2/2; five rows, split 3/1/1. *)
Definition seven : TextDataset := built reviews counting.
Definition five : TextDataset := built (take 5 reviews) counting.
Definition seven_positive_only : TextDataset := built reviews positive_only.

(** Eighteen rows, split 10/4/4. *)
Definition eighteen : TextDataset :=
  built (reviews ++ reviews ++ take 4 reviews) counting.

(** A file whose longest text has 1001 characters. *)
Definition long_file : list (string * string) :=
  [ ("short", "pos");
    (string_of_list_ascii (replicate 1001 "a"%char), "neg");
    ("shorter still", "pos") ].

(** The active table is one of the partitions, and a valid stored name is
    the name of the active table. *)
Definition observes (self : TextDataset) : Prop :=
  (∃ split, partition self split = Some (_target_data self))
  ∧ ∀ data, partition self (_target_split self) = Some data → data = _target_data self.

(** A split name that is no key of the dictionary. *)
Definition stale_name : string := "validation".

(** ** The read-only properties of the class *)

Definition train_data (self : TextDataset) : list Row := _train_data self.
Definition test_data (self : TextDataset) : list Row := _test_data self.
Definition val_data (self : TextDataset) : list Row := _val_data self.
Definition vectorizer (self : TextDataset) : TextVectorizer := _vectorizer self.

(** The item that [__getitem__] makes of a row once it has found it. *)
Definition item_of (self : TextDataset) (row : Row) : Result Item :=
  match label_vocab (_vectorizer self) !! label row with
  | Some k =>
      Ok {| x_data := vectorize (_vectorizer self)
                        (__string_processing (_stopwords self) (text row));
            y_target := k |}
  | None => Raise (UnknownLabel (label row))
  end.

(** What every yielded batch looks like: both tensors on the device, one
    entry per sample in each, and between one and [batch_size] samples. *)
Definition well_formed_batch (dev : string) (batch_size : nat) (b : Batch) : Prop :=
  device (x_data_batch b) = dev
  ∧ device (y_target_batch b) = dev
  ∧ length (values (x_data_batch b)) = length (values (y_target_batch b))
  ∧ (1 ≤ length (values (x_data_batch b)) ≤ batch_size)%nat.

(** * Properties *)

(** Membership in a concrete set, decided by evaluation. *)
Ltac by_evaluation := apply (bool_decide_unpack _); vm_compute; exact I.

(** Linear arithmetic with quotients by constants. *)
Ltac lia_div := zify; Z.to_euclidean_division_equations; lia.

(** ** Strings *)

Lemma str_app_nil_r (s : string) : s +:+ "" = s.
Proof. induction s as [|c s IH]; [done|]. change (String c (s +:+ "") = String c s). by rewrite IH. Qed.

Lemma str_app_assoc (s t u : string) : (s +:+ t) +:+ u = s +:+ t +:+ u.
Proof.
  induction s as [|c s IH]; [done|].
  change (String c ((s +:+ t) +:+ u) = String c (s +:+ t +:+ u)). by rewrite IH.
Qed.

Lemma str_app_snoc (s t : string) (c : ascii) :
  (s +:+ String c "") +:+ t = s +:+ String c t.
Proof. by rewrite str_app_assoc. Qed.

Lemma all_chars_impl (P Q : ascii → Prop) (s : string) :
  (∀ c, P c → Q c) → all_chars P s → all_chars Q s.
Proof. intros HPQ. induction s as [|c s IH]; simpl; [done|]. intros [??]. auto. Qed.

Lemma all_chars_app (P : ascii → Prop) (s t : string) :
  all_chars P (s +:+ t) ↔ all_chars P s ∧ all_chars P t.
Proof.
  induction s as [|c s IH]; [simpl; change ("" +:+ t) with t; tauto|].
  change (String c s +:+ t) with (String c (s +:+ t)). simpl. rewrite IH. tauto.
Qed.

(** ** Characters: facts checked on all 256 code points *)

Lemma lower_char_idemp (c : ascii) : lower_char (lower_char c) = lower_char c.
Proof. by destruct c as [[] [] [] [] [] [] [] []]. Qed.

(** ** [split] against the tokens of the specification *)

Lemma split_go_fields (cur s : string) :
  split_go cur s =
    match fields s with
    | [] => emit cur
    | f :: fs => emit (cur +:+ f) ++ filter (λ f, f ≠ "") fs
    end.
Proof.
  revert cur. induction s as [|c s IH]; intros cur; simpl.
  - rewrite str_app_nil_r. by rewrite filter_nil, (right_id_L [] (++)).
  - destruct (isspace c).
    + rewrite str_app_nil_r, IH. f_equal.
      destruct (fields s) as [|f fs]; [done|].
      change ("" +:+ f) with f. rewrite filter_cons.
      destruct f; by case_decide.
    + rewrite IH. destruct (fields s) as [|f fs]; simpl.
      * by rewrite filter_nil, (right_id_L [] (++)).
      * by rewrite str_app_snoc.
Qed.

Lemma split_tokens (s : string) : split s = tokens s.
Proof.
  unfold split, tokens. rewrite split_go_fields.
  destruct (fields s) as [|f fs]; [done|].
  change ("" +:+ f) with f. rewrite filter_cons. destruct f; by case_decide.
Qed.

Lemma re_sub_keep (s : string) :
  re_sub not_word_nor_space "" s = keep_chars (λ c, is_word c || isspace c) s.
Proof.
  induction s as [|c s IH]; simpl; [done|]. unfold not_word_nor_space at 1.
  destruct (is_word c || isspace c); simpl; by rewrite IH.
Qed.

(** ** What [split] produces, and what it does to a joined list *)

Lemma split_go_chars (Q : ascii → Prop) (cur s : string) :
  all_chars Q cur →
  all_chars (λ c, isspace c = false → Q c) s →
  Forall (λ t, t ≠ "" ∧ all_chars Q t) (split_go cur s).
Proof.
  revert cur. induction s as [|c s IH]; intros cur Hcur; simpl.
  - intros _. destruct cur; simpl; [constructor|]. by apply Forall_singleton.
  - intros [Hc Hs]. destruct (isspace c) eqn:Hsp.
    + apply Forall_app. split; [|by apply IH].
      destruct cur; simpl; [constructor|]. by apply Forall_singleton.
    + apply IH; [|done]. apply all_chars_app. simpl. auto.
Qed.

Lemma split_go_token (cur t rest : string) :
  all_chars (λ c, isspace c = false) t →
  split_go cur (t +:+ rest) = split_go (cur +:+ t) rest.
Proof.
  revert cur. induction t as [|c t IH]; intros cur; simpl.
  - intros _. change ("" +:+ rest) with rest. by rewrite str_app_nil_r.
  - intros [Hc Ht]. change (String c t +:+ rest) with (String c (t +:+ rest)).
    simpl. rewrite Hc, IH by done. by rewrite str_app_snoc.
Qed.

Lemma split_join (toks : list string) :
  Forall (λ t, t ≠ "" ∧ all_chars (λ c, isspace c = false) t) toks →
  split (join " " toks) = toks.
Proof.
  unfold split. induction 1 as [|t toks [Hne Ht] Htoks IH]; [done|].
  simpl. destruct toks as [|t' toks].
  - rewrite <-(str_app_nil_r t) at 1. rewrite split_go_token by done.
    change ("" +:+ t) with t. simpl. by destruct t.
  - rewrite split_go_token by done. change ("" +:+ t) with t.
    change (" " +:+ join " " (t' :: toks)) with (String " " (join " " (t' :: toks))).
    cbn [split_go]. change (isspace " ") with true. cbv iota.
    rewrite IH. by destruct t.
Qed.

Lemma all_chars_join (P : ascii → Prop) (toks : list string) :
  P " "%char → Forall (all_chars P) toks → all_chars P (join " " toks).
Proof.
  intros Hsp. induction 1 as [|t toks Ht Htoks IH]; [done|].
  simpl. destruct toks as [|t' toks]; [done|].
  apply all_chars_app. split; [done|].
  change (" " +:+ join " " (t' :: toks)) with (String " " (join " " (t' :: toks))).
  simpl. split; [done|]. apply IH.
Qed.

Lemma lower_fixed (s : string) : all_chars (λ c, lower_char c = c) s → lower s = s.
Proof. induction s as [|c s IH]; simpl; [done|]. intros [-> ?]. by rewrite IH. Qed.

Lemma keep_chars_fixed (P : ascii → bool) (s : string) :
  all_chars (λ c, P c = true) s → keep_chars P s = s.
Proof. induction s as [|c s IH]; simpl; [done|]. intros [-> ?]. by rewrite IH. Qed.

Lemma kept_lower_chars (s : string) :
  all_chars (λ c, isspace c = false → settled c)
    (keep_chars (λ c, is_word c || isspace c) (lower s)).
Proof.
  induction s as [|c s IH]; simpl; [done|].
  destruct (is_word (lower_char c) || isspace (lower_char c)) eqn:Hk; [|done].
  simpl. split; [|done]. intros Hsp. rewrite Hsp, orb_false_r in Hk.
  repeat split; [done..|]. apply lower_char_idemp.
Qed.

(** A joined list of settled tokens that are no stopwords is a fixed point of
    the normalisation. *)
Lemma string_processing_fixed (sw : gset string) (toks : list string) :
  Forall (λ t, t ≠ "" ∧ all_chars settled t) toks →
  Forall (λ t, t ∉ sw) toks →
  __string_processing sw (join " " toks) = join " " toks.
Proof.
  intros Htoks Hsw. unfold __string_processing.
  rewrite lower_fixed.
  2:{ apply all_chars_join; [done|]. eapply Forall_impl; [exact Htoks|].
      intros t [_ Ht]. eapply all_chars_impl; [|done]. by intros c (?&?&?). }
  rewrite re_sub_keep, keep_chars_fixed.
  2:{ apply all_chars_join; [done|]. eapply Forall_impl; [exact Htoks|].
      intros t [_ Ht]. eapply all_chars_impl; [|done]. by intros c (?&->&?). }
  rewrite split_join.
  2:{ eapply Forall_impl; [exact Htoks|]. intros t [? Ht]. split; [done|].
      eapply all_chars_impl; [|done]. by intros c (?&?&?). }
  f_equal. induction Hsw as [|t toks' Ht Hsw IH]; [done|].
  rewrite filter_cons_True by done. f_equal. apply IH. by inversion Htoks.
Qed.

(** ** Text normalisation *)

Lemma split_kept_tokens (sw : gset string) (s : string) :
  Forall (λ t, t ≠ "" ∧ all_chars settled t)
    (filter (λ w, w ∉ sw) (split (re_sub not_word_nor_space "" (lower s)))).
Proof.
  apply Forall_forall. intros t [_ Ht]%list_elem_of_filter. revert t Ht.
  apply Forall_forall. rewrite re_sub_keep.
  apply split_go_chars; [done|]. apply kept_lower_chars.
Qed.

(** C4: the normalisation lowercases, keeps only word characters and
    whitespace, drops the tokens that are stopwords and joins the rest with
    single spaces; with "the" among the stopwords (and none of the other three
    words), "The Quick, FOX!! jumps" becomes "quick fox jumps". *)
Theorem string_processing_normalizes (sw : gset string) (s : string) :
  __string_processing sw s = normalize_spec sw s
  ∧ ("the" ∈ sw → "quick" ∉ sw → "fox" ∉ sw → "jumps" ∉ sw →
     __string_processing sw "The Quick, FOX!! jumps" = "quick fox jumps").
Proof.
  split.
  - unfold __string_processing, normalize_spec.
    by rewrite re_sub_keep, split_tokens.
  - intros Hthe Hquick Hfox Hjumps. unfold __string_processing.
    replace (split (re_sub not_word_nor_space "" (lower "The Quick, FOX!! jumps")))
      with ["the"; "quick"; "fox"; "jumps"] by (by vm_compute).
    rewrite filter_cons_False by (intros H; by apply H).
    by rewrite !filter_cons_True by done.
Qed.

Lemma string_processing_normalizes_witness :
  __string_processing {["the"; "of"]} "The Quick, FOX!! jumps" = "quick fox jumps".
Proof.
  apply (proj2 (string_processing_normalizes {["the"; "of"]} "")).
  - by_evaluation.
  - by_evaluation.
  - by_evaluation.
  - by_evaluation.
Defined.

(** C5: the normalisation is idempotent, for every text and every stopword
    set. *)
Theorem string_processing_idempotent (sw : gset string) (s : string) :
  __string_processing sw (__string_processing sw s) = __string_processing sw s.
Proof.
  unfold __string_processing at 2 3.
  apply string_processing_fixed; [apply split_kept_tokens|].
  apply Forall_forall. by intros t [Ht _]%list_elem_of_filter.
Qed.

(** ** The two splits *)

Lemma ceiling_fifth (n : nat) :
  Z.to_nat (Qceiling ((1 # 5) * inject_Z (Z.of_nat n))) = ((n + 4) / 5)%nat.
Proof.
  unfold Qceiling, Qfloor, Qopp, Qmult, inject_Z. cbn [Qnum Qden].
  change (Z.pos (5 * 1)) with 5.
  apply Nat2Z.inj. rewrite Nat2Z.inj_div. lia_div.
Qed.

Lemma ceiling_quarter (n : nat) :
  Z.to_nat (Qceiling ((1 # 4) * inject_Z (Z.of_nat n))) = ((n + 3) / 4)%nat.
Proof.
  unfold Qceiling, Qfloor, Qopp, Qmult, inject_Z. cbn [Qnum Qden].
  change (Z.pos (4 * 1)) with 4.
  apply Nat2Z.inj. rewrite Nat2Z.inj_div. lia_div.
Qed.

Lemma validate_shuffle_split_Ok (n : nat) (q : Q) (n_train n_test : nat) :
  _validate_shuffle_split n q = Ok (n_train, n_test) →
  n_test = Z.to_nat (Qceiling (q * inject_Z (Z.of_nat n)))
  ∧ (n_train + n_test = n)%nat ∧ n_train ≠ 0%nat.
Proof.
  unfold _validate_shuffle_split.
  destruct (Qle_bool q 0 || Qle_bool 1 q); [done|].
  destruct (_ =? 0)%nat eqn:Hz; [done|].
  apply Nat.eqb_neq in Hz. intros [= <- <-]. lia.
Qed.

Lemma safe_indexing_Ok {A} (X : list A) (indices : list nat) (l : list A) :
  _safe_indexing X indices = Ok l →
  l = omap (λ i, X !! i) indices ∧ length l = length indices.
Proof.
  revert l. induction indices as [|i indices IH]; intros l; simpl.
  - by intros [= <-].
  - destruct (X !! i) as [x|]; [|done].
    destruct (_safe_indexing X indices) as [xs|]; [|done].
    simpl. intros [= <-]. destruct (IH xs eq_refl) as [-> Hlen].
    simpl. by rewrite Hlen.
Qed.

Lemma safe_indexing_total {A} (X : list A) (indices : list nat) :
  Forall (λ i, i < length X)%nat indices → ∃ l, _safe_indexing X indices = Ok l.
Proof.
  induction 1 as [|i indices Hi _ [l IH]]; simpl; [by eexists|].
  destruct (lookup_lt_is_Some_2 X i Hi) as [x ->]. rewrite IH. by eexists.
Qed.

Lemma omap_lookup_seq {A} (X : list A) (k m : nat) :
  omap (λ i, X !! i) (seq k m) = take m (drop k X).
Proof.
  revert k. induction m as [|m IH]; intros k; simpl; [done|].
  rewrite IH. destruct (X !! k) as [x|] eqn:Hk.
  - by rewrite (drop_S _ _ _ Hk).
  - apply lookup_ge_None in Hk. rewrite !drop_ge by lia. by rewrite !take_nil.
Qed.

Lemma train_test_split_Ok {A} (X : list A) (q : Q) (rs rs' : RandomState)
    (train test : list A) :
  train_test_split X q rs = (Ok (train, test), rs') →
  train ++ test ≡ₚ X
  ∧ length test = Z.to_nat (Qceiling (q * inject_Z (Z.of_nat (length X))))
  ∧ (length train + length test = length X)%nat
  ∧ length train ≠ 0%nat.
Proof.
  unfold train_test_split.
  destruct (_validate_shuffle_split _ _) as [[n_train n_test]|] eqn:Hv; [|done].
  apply validate_shuffle_split_Ok in Hv as (Htest & Hsum & Htrain).
  unfold permutation. set (perm := draws rs (served rs) (length X)).
  assert (Hperm : perm ≡ₚ seq 0 (length X)) by apply draws_perm.
  assert (Hlen : length perm = length X) by (by rewrite Hperm, length_seq).
  destruct (_safe_indexing X (take n_train _)) as [tr|] eqn:Htr; [|done].
  destruct (_safe_indexing X (take n_test _)) as [te|] eqn:Hte; [|done].
  simpl. intros [= <- <- _].
  apply safe_indexing_Ok in Htr as [-> Hltr], Hte as [-> Hlte].
  rewrite length_take, length_drop in Hltr. rewrite length_take in Hlte.
  rewrite take_ge in * by (rewrite length_drop; lia).
  split; [|lia].
  rewrite (comm (++)), <-omap_app, take_drop, Hperm, omap_lookup_seq.
  by rewrite drop_0, firstn_all.
Qed.

Lemma train_test_split_total {A} (X : list A) (q : Q) (rs : RandomState)
    (n_train n_test : nat) :
  _validate_shuffle_split (length X) q = Ok (n_train, n_test) →
  ∃ train test rs', train_test_split X q rs = (Ok (train, test), rs').
Proof.
  intros Hv. unfold train_test_split. rewrite Hv. unfold permutation.
  set (perm := draws rs (served rs) (length X)).
  assert (Hperm : perm ≡ₚ seq 0 (length X)) by apply draws_perm.
  assert (Hin : Forall (λ i, i < length X)%nat perm).
  { rewrite Hperm. apply Forall_seq. lia. }
  destruct (safe_indexing_total X (take n_train (drop n_test perm))) as [tr ->].
  { by apply Forall_take, Forall_drop. }
  destruct (safe_indexing_total X (take n_test perm)) as [te ->].
  { by apply Forall_take. }
  simpl. by do 3 eexists.
Qed.

(** ** Construction *)

(** What a successful [__init__] did. *)
Lemma init_Ok (text_data : list Row) (vectorizer : TextVectorizer) (language : string)
    (corpus : gmap string (list string)) (rs rs' : RandomState) (self : TextDataset) :
  __init__ text_data vectorizer language corpus rs = (Ok self, rs') →
  ∃ train_val rs1 words,
    train_test_split text_data (1 # 5) rs = (Ok (train_val, _test_data self), rs1)
    ∧ train_test_split train_val (1 # 4) rs1 = (Ok (_train_data self, _val_data self), rs')
    ∧ corpus !! language = Some words
    ∧ _vectorizer self = vectorizer
    ∧ _stopwords self = list_to_set words
    ∧ consistent self
    ∧ _target_split self = "train"
    ∧ _target_data self = _train_data self.
Proof.
  unfold __init__.
  destruct (train_test_split text_data _ rs) as [[[train_val test]|] rs1] eqn:H1; [|done].
  destruct (train_test_split train_val _ rs1) as [[[train val]|] rs2] eqn:H2; [|done].
  destruct (corpus !! language) as [words|]; [|done].
  unfold set_split. cbn [with_target_split _lookup_dict].
  rewrite lookup_insert_eq. intros [= <- <-].
  exists train_val, rs1, words. by repeat split.
Qed.

Lemma validate_fifth (n : nat) :
  (2 ≤ n)%nat →
  _validate_shuffle_split n (1 # 5) = Ok ((n - (n + 4) / 5)%nat, ((n + 4) / 5)%nat).
Proof.
  intros Hn. unfold _validate_shuffle_split. rewrite ceiling_fifth. simpl orb. cbv iota.
  pose proof (Nat.div_mod_eq (n + 4) 5). pose proof (Nat.mod_upper_bound (n + 4) 5).
  destruct (Nat.eqb_spec (n - (n + 4) `div` 5) 0); [lia|done].
Qed.

Lemma validate_quarter (n : nat) :
  (2 ≤ n)%nat →
  _validate_shuffle_split n (1 # 4) = Ok ((n - (n + 3) / 4)%nat, ((n + 3) / 4)%nat).
Proof.
  intros Hn. unfold _validate_shuffle_split. rewrite ceiling_quarter. simpl orb. cbv iota.
  pose proof (Nat.div_mod_eq (n + 3) 4). pose proof (Nat.mod_upper_bound (n + 3) 4).
  destruct (Nat.eqb_spec (n - (n + 3) `div` 4) 0); [lia|done].
Qed.

(** [__init__] returns an instance for every table of at least three rows
    and every language of the corpus. *)
Lemma init_total (text_data : list Row) (vectorizer : TextVectorizer) (language : string)
    (corpus : gmap string (list string)) (rs : RandomState) :
  (3 ≤ length text_data)%nat → is_Some (corpus !! language) →
  ∃ self rs', __init__ text_data vectorizer language corpus rs = (Ok self, rs').
Proof.
  intros Hn [words Hwords]. unfold __init__.
  destruct (train_test_split_total text_data (1 # 5) rs _ _ (validate_fifth (length text_data) ltac:(lia)))
    as (train_val & test & rs1 & H1).
  rewrite H1. apply train_test_split_Ok in H1 as (_ & Ht & Hs & _).
  rewrite ceiling_fifth in Ht.
  assert (Hm : (2 ≤ length train_val)%nat).
  { pose proof (Nat.div_mod_eq (length text_data + 4) 5).
    pose proof (Nat.mod_upper_bound (length text_data + 4) 5). lia. }
  destruct (train_test_split_total train_val (1 # 4) rs1 _ _ (validate_quarter _ Hm))
    as (train & val & rs2 & H2).
  rewrite H2, Hwords. unfold set_split. cbn [with_target_split _lookup_dict].
  rewrite lookup_insert_eq. by eexists _, _.
Qed.

(** C1, as the code has it: the three partitions of a constructed instance
    hold every row of the input exactly once, so their row counts add up to
    the input's and no row is in two of them; the test partition has a fifth
    of the rows, rounded up, the validation partition a quarter of the rest,
    rounded up, and the train partition what is left, which is 60/20/20
    percent exactly when the row count is a multiple of five. *)
Theorem init_partitions (text_data : list Row) (vectorizer : TextVectorizer)
    (language : string) (corpus : gmap string (list string)) (rs rs' : RandomState)
    (self : TextDataset) :
  __init__ text_data vectorizer language corpus rs = (Ok self, rs') →
  (length (_train_data self) + length (_val_data self) + length (_test_data self)
     = length text_data)%nat
  ∧ _train_data self ++ _val_data self ++ _test_data self ≡ₚ text_data
  ∧ (NoDup (index <$> text_data) →
     disjoint_rows (_train_data self) (_val_data self)
     ∧ disjoint_rows (_train_data self) (_test_data self)
     ∧ disjoint_rows (_val_data self) (_test_data self))
  ∧ length (_test_data self) = ((length text_data + 4) / 5)%nat
  ∧ length (_val_data self)
      = ((length text_data - length (_test_data self) + 3) / 4)%nat
  ∧ length (_train_data self)
      = (length text_data - length (_test_data self) - length (_val_data self))%nat
  ∧ ((length text_data `mod` 5 = 0)%nat →
     exactly_60_20_20 (length text_data) (length (_train_data self))
       (length (_val_data self)) (length (_test_data self))).
Proof.
  intros (train_val & rs1 & words & H1 & H2 & _)%init_Ok.
  apply train_test_split_Ok in H1 as (Hp1 & Ht1 & Hs1 & _).
  apply train_test_split_Ok in H2 as (Hp2 & Ht2 & Hs2 & _).
  rewrite ceiling_fifth in Ht1. rewrite ceiling_quarter in Ht2.
  assert (Hperm : _train_data self ++ _val_data self ++ _test_data self ≡ₚ text_data).
  { by rewrite (assoc (++)), Hp2. }
  assert (Htv : length train_val = (length text_data - length (_test_data self))%nat) by lia.
  rewrite Htv in Ht2.
  split; [lia|]. split; [done|]. split; [|split; [done|split; [done|split; [lia|]]]].
  - intros Hnd. rewrite <-Hperm, !fmap_app in Hnd.
    apply NoDup_app in Hnd as (_ & Htrain & Hnd).
    apply NoDup_app in Hnd as (_ & Hval & _).
    repeat split; intros r r' Hr Hr' Heq.
    + apply (Htrain (index r)); [by apply list_elem_of_fmap_2|].
      apply elem_of_app. left. rewrite Heq. by apply list_elem_of_fmap_2.
    + apply (Htrain (index r)); [by apply list_elem_of_fmap_2|].
      apply elem_of_app. right. rewrite Heq. by apply list_elem_of_fmap_2.
    + apply (Hval (index r)); [by apply list_elem_of_fmap_2|].
      rewrite Heq. by apply list_elem_of_fmap_2.
  - intros Hmod. unfold exactly_60_20_20.
    revert Ht1 Ht2 Hmod Hs1 Hs2 Htv.
    generalize (length text_data) (length (_train_data self))
      (length (_val_data self)) (length (_test_data self)) (length train_val).
    intros n a b c d. intros. subst c b.
    pose proof (Nat.div_mod_eq (n + 4) 5).
    pose proof (Nat.mod_upper_bound (n + 4) 5).
    pose proof (Nat.div_mod_eq (n - (n + 4) `div` 5 + 3) 4).
    pose proof (Nat.mod_upper_bound (n - (n + 4) `div` 5 + 3) 4).
    pose proof (Nat.div_mod_eq n 5).
    lia.
Qed.

(** The rows of a file that was read carry the index labels 0, 1, 2, ... *)
Lemma read_csv_index (records : list (string * string)) :
  index <$> read_csv records = seq 0 (length records).
Proof.
  unfold read_csv. rewrite fmap_imap.
  rewrite <-(list_fmap_id (seq 0 (length records))).
  rewrite <-(imap_seq_0 records id). by apply imap_ext.
Qed.

Lemma init_five :
  __init__ (read_csv (take 5 reviews)) counting "english" english reversing
  = (Ok five, (__init__ (read_csv (take 5 reviews)) counting "english" english reversing).2).
Proof. by vm_compute. Qed.

Lemma init_partitions_witness :
  _train_data five ++ _val_data five ++ _test_data five ≡ₚ read_csv (take 5 reviews)
  ∧ disjoint_rows (_train_data five) (_test_data five)
  ∧ exactly_60_20_20 5 (length (_train_data five)) (length (_val_data five))
      (length (_test_data five)).
Proof.
  destruct (init_partitions _ _ _ _ _ _ _ init_five)
    as (_ & Hperm & Hdisjoint & _ & _ & _ & Hsizes).
  split; [exact Hperm|]. split.
  - apply Hdisjoint. rewrite read_csv_index. apply NoDup_seq.
  - apply Hsizes. reflexivity.
Defined.

(** C1, as stated, fails on seven rows: the partitions have 3, 2 and 2 rows,
    which is not 60/20/20 percent of seven. *)
Lemma init_seven_not_60_20_20 :
  (__init__ (read_csv reviews) counting "english" english reversing).1 = Ok seven
  ∧ length (_train_data seven) = 3%nat
  ∧ length (_val_data seven) = 2%nat
  ∧ length (_test_data seven) = 2%nat
  ∧ ¬ exactly_60_20_20 (length (read_csv reviews)) (length (_train_data seven))
        (length (_val_data seven)) (length (_test_data seven)).
Proof.
  repeat split; try by vm_compute.
  intros (H & _). vm_compute in H. discriminate.
Qed.

(** ** Instances are consistent *)

Lemma set_split_consistent (split : string) (self : TextDataset) :
  consistent self → consistent (set_split split self).2.
Proof.
  intros [Hdict Hsize]. unfold set_split. cbn [with_target_split _lookup_dict].
  destruct (_lookup_dict self !! split) as [[data size]|] eqn:Hl; [|done].
  split; [done|]. cbn. rewrite Hdict in Hl.
  apply lookup_insert_Some in Hl as [[_ [= <- <-]]|[_ Hl]]; [done|].
  apply lookup_insert_Some in Hl as [[_ [= <- <-]]|[_ Hl]]; [done|].
  by apply lookup_singleton_Some in Hl as [_ [= <- <-]].
Qed.

Lemma run_call_self (c : call) (self : TextDataset) (rs : RandomState) :
  (run_call c (self, rs)).2.1 = self
  ∨ ∃ split, c = call_set_split split ∧ (run_call c (self, rs)).2.1 = (set_split split self).2.
Proof.
  destruct c as [split| |index|batch_size shuffle drop_last dev]; simpl; auto.
  - right. exists split. by destruct (set_split split self).
  - left. by destruct (generate_batches _ _ _ _ _ _).
Qed.

Lemma run_calls_cons (c : call) (cs : list call) (st : TextDataset * RandomState) :
  (run_calls (c :: cs) st).2 = (run_calls cs (run_call c st).2).2.
Proof.
  simpl. destruct (run_call c st) as [a st1]. simpl.
  by destruct (run_calls cs st1).
Qed.

Lemma run_calls_consistent (cs : list call) (self : TextDataset) (rs : RandomState) :
  consistent self → consistent (run_calls cs (self, rs)).2.1.
Proof.
  revert self rs. induction cs as [|c cs IH]; intros self rs Hc; [done|].
  rewrite run_calls_cons.
  destruct (run_call c (self, rs)) as [a [self1 rs1]] eqn:Hrun. simpl.
  apply IH.
  destruct (run_call_self c self rs) as [H|(split & _ & H)];
    rewrite Hrun in H; simpl in H; subst self1; [done|].
  by apply set_split_consistent.
Qed.

Lemma instance_consistent (self : TextDataset) : is_instance self → consistent self.
Proof.
  intros (text_data & vectorizer & language & corpus & rs & self0 & rs0 & cs & rs1 & Hinit & Hrun).
  apply init_Ok in Hinit as (? & ? & ? & _ & _ & _ & _ & _ & Hc & _).
  apply (run_calls_consistent cs self0 rs0) in Hc. by rewrite Hrun in Hc.
Qed.

Lemma built_instance (records : list (string * string)) (vectorizer : TextVectorizer) :
  is_Ok (__init__ (read_csv records) vectorizer "english" english reversing).1 = true →
  is_instance (built records vectorizer).
Proof.
  intros Hok. unfold built.
  destruct (__init__ _ _ _ _ _) as [[self|] rs0] eqn:Hinit; [|done].
  by exists (read_csv records), vectorizer, "english", english, reversing, self, rs0, [], rs0.
Qed.

(** ** Selecting a split *)

Lemma partition_lookup (self : TextDataset) (split : string) :
  consistent self →
  _lookup_dict self !! split = (λ data, (data, length data)) <$> partition self split.
Proof.
  intros [-> _]. unfold partition.
  repeat case_decide; subst; simplify_map_eq; done.
Qed.

Lemma partition_names (self : TextDataset) (split : string) :
  is_Some (partition self split) ↔ split ∈ ["train"; "val"; "test"].
Proof.
  unfold partition. rewrite !elem_of_cons, elem_of_nil.
  repeat case_decide; subst.
  1-3: split; [intros _; auto | intros _; eauto].
  split; [by intros [? [=]] | by intros [?|[?|[?|[]]]]].
Qed.

Lemma set_split_Some (self : TextDataset) (split : string) (data : list Row) :
  consistent self → partition self split = Some data →
  set_split split self
  = (Ok (), with_target data (length data) (with_target_split split self)).
Proof.
  intros Hc Hp. unfold set_split. cbn [with_target_split _lookup_dict].
  by rewrite partition_lookup, Hp.
Qed.

Lemma set_split_None (self : TextDataset) (split : string) :
  consistent self → partition self split = None →
  set_split split self = (Raise (InvalidSplit split), with_target_split split self).
Proof.
  intros Hc Hp. unfold set_split. cbn [with_target_split _lookup_dict].
  by rewrite partition_lookup, Hp.
Qed.

Lemma set_split_same_contents (split : string) (self : TextDataset) :
  same_contents (set_split split self).2 self.
Proof.
  unfold set_split. cbn [with_target_split _lookup_dict].
  by destruct (_lookup_dict self !! split) as [[data size]|].
Qed.

Lemma run_calls_same_contents (calls : list call) (self : TextDataset) (rs : RandomState) :
  same_contents (run_calls calls (self, rs)).2.1 self.
Proof.
  revert self rs. induction calls as [|c calls IH]; intros self rs; [done|].
  rewrite run_calls_cons.
  destruct (run_call c (self, rs)) as [a [self1 rs1]] eqn:Hrun. simpl.
  assert (H1 : same_contents self1 self).
  { destruct (run_call_self c self rs) as [H|(split & _ & H)];
      rewrite Hrun in H; simpl in H; subst self1; [done|].
    apply set_split_same_contents. }
  specialize (IH self1 rs1). unfold same_contents in *.
  destruct IH as (-> & -> & -> & -> & -> & ->). done.
Qed.

(** C2: after [set_split(s)] with a valid name, [__len__] is the row count of
    exactly the partition [s]; and the instance that [__init__] returns has
    the train partition active, so its [__len__] is that partition's row
    count. [self0] is the instance as constructed, [self] the same object
    after any calls. *)
Theorem set_split_then_len (text_data : list Row) (vectorizer : TextVectorizer)
    (language : string) (corpus : gmap string (list string)) (rs rs0 rs1 : RandomState)
    (self0 self : TextDataset) (calls : list call) (split : string) (data : list Row) :
  __init__ text_data vectorizer language corpus rs = (Ok self0, rs0) →
  (run_calls calls (self0, rs0)).2 = (self, rs1) →
  partition self split = Some data →
  ((set_split split self).1 = Ok ()
   ∧ __len__ (set_split split self).2 = length data
   ∧ _target_data (set_split split self).2 = data
   ∧ _target_split (set_split split self).2 = split)
  ∧ (_target_split self0 = "train"
     ∧ __len__ self0 = length (_train_data self0)
     ∧ _target_data self0 = _train_data self0).
Proof.
  intros Hinit Hrun Hp. split.
  - assert (Hc : consistent self).
    { apply instance_consistent. by repeat eexists. }
    by rewrite (set_split_Some _ _ _ Hc Hp).
  - apply init_Ok in Hinit as (? & ? & ? & _ & _ & _ & _ & _ & [_ Hsize] & Hsplit & Hdata).
    unfold __len__. by rewrite Hsize, Hdata.
Qed.

(** C3: [set_split] fails with InvalidSplit for every name that is not
    train, val or test, and succeeds for these three. *)
Theorem set_split_names (self : TextDataset) (name : string) :
  is_instance self →
  (name ∉ ["train"; "val"; "test"] → (set_split name self).1 = Raise (InvalidSplit name))
  ∧ (name ∈ ["train"; "val"; "test"] → (set_split name self).1 = Ok ()).
Proof.
  intros Hc%instance_consistent. split; intros Hname.
  - rewrite set_split_None; [done..|].
    apply eq_None_not_Some. by rewrite partition_names.
  - apply (partition_names self) in Hname as [data Hp]. by erewrite set_split_Some.
Qed.

(** C9: no sequence of [set_split], [__len__], [__getitem__] and
    [generate_batches] calls changes the three partitions (nor the
    dictionary, the stopwords or the vectorizer); [set_split] changes the
    target attributes only. *)
Theorem partitions_fixed (self : TextDataset) (rs : RandomState) (calls : list call)
    (split : string) :
  same_contents (run_calls calls (self, rs)).2.1 self
  ∧ same_contents (set_split split self).2 self.
Proof. split; [apply run_calls_same_contents | apply set_split_same_contents]. Qed.

Lemma init_seven :
  __init__ (read_csv reviews) counting "english" english reversing
  = (Ok seven, (__init__ (read_csv reviews) counting "english" english reversing).2).
Proof. by vm_compute. Qed.

Lemma seven_is_instance : is_instance seven.
Proof. apply built_instance. by vm_compute. Qed.

Lemma seven_positive_only_is_instance : is_instance seven_positive_only.
Proof. apply built_instance. by vm_compute. Qed.

Lemma set_split_then_len_witness :
  __len__ (set_split "val" seven).2 = length (_val_data seven)
  ∧ _target_split seven = "train".
Proof.
  destruct (set_split_then_len _ _ _ _ _ _ _ seven seven [] "val" (_val_data seven)
              init_seven eq_refl eq_refl) as [(_ & Hlen & _) (Hsplit & _)].
  split; [exact Hlen | exact Hsplit].
Defined.

Lemma set_split_names_witness :
  (set_split "validation" seven).1 = Raise (InvalidSplit "validation")
  ∧ (set_split "val" seven).1 = Ok ().
Proof.
  split.
  - apply (proj1 (set_split_names seven "validation" seven_is_instance)). by_evaluation.
  - apply (proj2 (set_split_names seven "val" seven_is_instance)). by_evaluation.
Defined.

(** ** Fetching a row *)

Lemma iloc_out_of_range (df : list Row) (i : Z) :
  i < - Z.of_nat (length df) ∨ Z.of_nat (length df) ≤ i →
  iloc df i = Raise IndexOutOfRange.
Proof.
  intros Hi. unfold iloc.
  destruct (Z.leb_spec (Z.of_nat (length df)) i); [done|].
  destruct (Z.ltb_spec i (- Z.of_nat (length df))); [done|]. lia.
Qed.

Lemma iloc_in_range (df : list Row) (i : Z) :
  0 ≤ i < Z.of_nat (length df) →
  ∃ row, df !! Z.to_nat i = Some row ∧ iloc df i = Ok row.
Proof.
  intros Hi. unfold iloc.
  destruct (Z.leb_spec (Z.of_nat (length df)) i); [lia|].
  destruct (Z.ltb_spec i (- Z.of_nat (length df))); [lia|]. simpl.
  destruct (Z.ltb_spec i 0); [lia|].
  destruct (lookup_lt_is_Some_2 df (Z.to_nat i)) as [row Hrow]; [lia|].
  exists row. by rewrite Hrow.
Qed.

Lemma iloc_negative (df : list Row) (i : Z) :
  - Z.of_nat (length df) ≤ i < 0 →
  iloc df i = iloc df (Z.of_nat (length df) + i).
Proof.
  intros Hi. unfold iloc.
  destruct (Z.leb_spec (Z.of_nat (length df)) i); [lia|].
  destruct (Z.ltb_spec i (- Z.of_nat (length df))); [lia|].
  destruct (Z.leb_spec (Z.of_nat (length df)) (Z.of_nat (length df) + i)); [lia|].
  destruct (Z.ltb_spec (Z.of_nat (length df) + i) (- Z.of_nat (length df))); [lia|].
  simpl.
  destruct (Z.ltb_spec i 0); [|lia].
  destruct (Z.ltb_spec (Z.of_nat (length df) + i) 0); [lia|].
  by rewrite (Z.add_comm i).
Qed.

(** What [__getitem__] does once the row is found. *)
Lemma getitem_row (self : TextDataset) (i : Z) (row : Row) :
  iloc (_target_data self) i = Ok row →
  __getitem__ self i =
    match label_vocab (_vectorizer self) !! label row with
    | Some k =>
        Ok {| x_data := vectorize (_vectorizer self)
                          (__string_processing (_stopwords self) (text row));
              y_target := k |}
    | None => Raise (UnknownLabel (label row))
    end.
Proof.
  intros Hrow. unfold __getitem__. rewrite Hrow. simpl. unfold lookup_token.
  by destruct (label_vocab (_vectorizer self) !! label row).
Qed.

(** C6, as the code has it: [__getitem__] fails with IndexOutOfRange for
    every index at or above the size of the active split and for every index
    below minus that size; for every other index a row is found (from the end
    when the index is negative), and the call fails with UnknownLabel when
    the label of that row is absent from the label vocabulary. *)
Theorem getitem_errors (self : TextDataset) (i : Z) :
  is_instance self →
  (i < - Z.of_nat (__len__ self) ∨ Z.of_nat (__len__ self) ≤ i →
   __getitem__ self i = Raise IndexOutOfRange)
  ∧ (- Z.of_nat (__len__ self) ≤ i < Z.of_nat (__len__ self) →
     ∃ row, iloc (_target_data self) i = Ok row
       ∧ (label_vocab (_vectorizer self) !! label row = None →
          __getitem__ self i = Raise (UnknownLabel (label row)))).
Proof.
  intros [_ Hsize]%instance_consistent. unfold __len__. rewrite Hsize. split.
  - intros Hi. unfold __getitem__. by rewrite iloc_out_of_range.
  - intros Hi.
    assert (∃ row, iloc (_target_data self) i = Ok row) as [row Hrow].
    { destruct (Z.ltb_spec i 0).
      - rewrite iloc_negative by lia.
        destruct (iloc_in_range (_target_data self)
                    (Z.of_nat (length (_target_data self)) + i)) as (row & _ & ->); [lia|].
        by exists row.
      - destruct (iloc_in_range (_target_data self) i) as (row & _ & ->); [lia|].
        by exists row. }
    exists row. split; [done|]. intros Hl. by rewrite (getitem_row _ _ _ Hrow), Hl.
Qed.

Lemma getitem_errors_witness :
  __getitem__ seven_positive_only 3 = Raise IndexOutOfRange
  ∧ __getitem__ seven_positive_only (-4) = Raise IndexOutOfRange
  ∧ ∃ row, iloc (_target_data seven_positive_only) 0 = Ok row
      ∧ (label_vocab (_vectorizer seven_positive_only) !! label row = None →
         __getitem__ seven_positive_only 0 = Raise (UnknownLabel (label row))).
Proof.
  split; [|split].
  - apply (proj1 (getitem_errors seven_positive_only 3 seven_positive_only_is_instance)).
    right. by vm_compute.
  - apply (proj1 (getitem_errors seven_positive_only (-4) seven_positive_only_is_instance)).
    left. by vm_compute.
  - apply (proj2 (getitem_errors seven_positive_only 0 seven_positive_only_is_instance)).
    by vm_compute.
Defined.

(** C6, as stated, fails at index -1: it is outside [0 <= index < size()],
    and [__getitem__] returns the item of the last row of the split. *)
Lemma getitem_minus_one_succeeds :
  __len__ seven = 3%nat
  ∧ ¬ (0 ≤ -1 < Z.of_nat (__len__ seven))
  ∧ __getitem__ seven (-1) = Ok {| x_data := [9]; y_target := 1 |}.
Proof. repeat split; try by vm_compute. intros [? _]. lia. Qed.

(** C10, as the code has it: on an active split of [n > 0] rows,
    [__getitem__] at a negative index [i] with [-n <= i <= -1] never fails
    with IndexOutOfRange: it finds the row at position [n + i] and does what
    it does at [n + i], returning the vectorized normalised text and the
    label index of that row when the label is in the vocabulary, and failing
    with UnknownLabel when it is not. *)
Theorem getitem_negative_index (self : TextDataset) (i : Z) :
  is_instance self →
  (0 < __len__ self)%nat →
  - Z.of_nat (__len__ self) ≤ i ≤ -1 →
  __getitem__ self i = __getitem__ self (Z.of_nat (__len__ self) + i)
  ∧ __getitem__ self i ≠ Raise IndexOutOfRange
  ∧ ∃ row, _target_data self !! Z.to_nat (Z.of_nat (__len__ self) + i) = Some row
      ∧ iloc (_target_data self) i = Ok row
      ∧ (∀ k, label_vocab (_vectorizer self) !! label row = Some k →
          __getitem__ self i =
            Ok {| x_data := vectorize (_vectorizer self)
                              (__string_processing (_stopwords self) (text row));
                  y_target := k |})
      ∧ (label_vocab (_vectorizer self) !! label row = None →
          __getitem__ self i = Raise (UnknownLabel (label row))).
Proof.
  intros [_ Hsize]%instance_consistent. unfold __len__. rewrite Hsize.
  intros Hn Hi.
  assert (Hneg : iloc (_target_data self) i
                 = iloc (_target_data self) (Z.of_nat (length (_target_data self)) + i))
    by (apply iloc_negative; lia).
  split; [unfold __getitem__; by rewrite Hneg|].
  destruct (iloc_in_range (_target_data self)
              (Z.of_nat (length (_target_data self)) + i)) as (row & Hrow & Hiloc); [lia|].
  rewrite <-Hneg in Hiloc. split.
  - rewrite (getitem_row _ _ _ Hiloc).
    by destruct (label_vocab (_vectorizer self) !! label row).
  - exists row. split; [done|]. split; [done|]. split.
    + intros k Hk. by rewrite (getitem_row _ _ _ Hiloc), Hk.
    + intros Hk. by rewrite (getitem_row _ _ _ Hiloc), Hk.
Qed.

Lemma getitem_negative_index_witness :
  __getitem__ seven (-1) = __getitem__ seven (Z.of_nat (__len__ seven) + -1)
  ∧ __getitem__ seven (-1) ≠ Raise IndexOutOfRange.
Proof.
  destruct (getitem_negative_index seven (-1) seven_is_instance) as (Hsame & Hnot & _).
  - vm_compute. lia.
  - vm_compute. split; discriminate.
  - split; [exact Hsame | exact Hnot].
Defined.

(** C10, as stated, fails where the label is unknown: on a split of three
    rows index -3 is a valid negative index, and [__getitem__] fails there
    with UnknownLabel. *)
Lemma getitem_negative_unknown_label :
  __len__ seven_positive_only = 3%nat
  ∧ - Z.of_nat (__len__ seven_positive_only) ≤ -3 ≤ -1
  ∧ __getitem__ seven_positive_only (-3) = Raise (UnknownLabel "neg").
Proof. repeat split; by vm_compute. Qed.

(** ** Batches *)

Lemma BatchSampler_chunks (b : nat) (batch indices : list nat) :
  (0 < b)%nat → (length batch < b)%nat →
  ∃ full rest,
    BatchSampler b true batch indices = full
    ∧ BatchSampler b false batch indices
      = full ++ match rest with [] => [] | _ :: _ => [rest] end
    ∧ Forall (λ c, length c = b) full
    ∧ batch ++ indices = concat full ++ rest
    ∧ (length rest < b)%nat.
Proof.
  intros Hb. revert batch. induction indices as [|idx indices IH]; intros batch Hlen.
  - exists [], batch. simpl. rewrite andb_false_r, andb_true_r, (right_id_L [] (++)).
    repeat split; [|done..]. by destruct batch.
  - simpl. destruct (Nat.eqb_spec (length (batch ++ [idx])) b) as [Heq|Hne].
    + destruct (IH [] Hb) as (full & rest & H1 & H2 & H3 & H4 & H5).
      exists ((batch ++ [idx]) :: full), rest. rewrite H1, H2.
      repeat split; [by constructor| |done].
      simpl in *. rewrite H4. by rewrite <-!(assoc (++)).
    + rewrite length_app in Hne. simpl in Hne.
      destruct (IH (batch ++ [idx])) as (full & rest & H1 & H2 & H3 & H4 & H5).
      { rewrite length_app. simpl. lia. }
      exists full, rest. repeat split; [done..| |done].
      by rewrite <-H4, <-(assoc (++)).
Qed.

Lemma concat_length_full {A} (b : nat) (full : list (list A)) :
  Forall (λ c, length c = b) full → length (concat full) = (b * length full)%nat.
Proof.
  induction 1 as [|c full Hc _ IH]; simpl; [lia|]. rewrite length_app, IH, Hc. lia.
Qed.

Lemma getitem_known (self : TextDataset) (idx : nat) :
  consistent self → labels_known self → (idx < __len__ self)%nat →
  ∃ item, __getitem__ self (Z.of_nat idx) = Ok item.
Proof.
  intros [_ Hsize] Hknown Hidx. unfold __len__ in Hidx. rewrite Hsize in Hidx.
  destruct (iloc_in_range (_target_data self) (Z.of_nat idx)) as (row & Hrow & Hiloc); [lia|].
  rewrite (getitem_row _ _ _ Hiloc).
  unfold labels_known in Hknown. rewrite Forall_forall in Hknown.
  destruct (Hknown row) as [k ->]; [|by eexists].
  by eapply list_elem_of_lookup_2.
Qed.

Lemma fetched_known (self : TextDataset) (batch : list nat) :
  consistent self → labels_known self →
  Forall (λ idx, idx < __len__ self)%nat batch →
  ∃ items, fetched self batch items.
Proof.
  intros Hc Hknown. induction 1 as [|idx batch Hidx _ (items & Hitems)].
  - exists []. constructor.
  - destruct (getitem_known self idx) as [item Hitem]; [done..|].
    exists (item :: items). by constructor.
Qed.

Lemma fetched_all_known (self : TextDataset) (batches : list (list nat)) :
  consistent self → labels_known self →
  Forall (Forall (λ idx, idx < __len__ self)%nat) batches →
  ∃ itemss, Forall2 (fetched self) batches itemss.
Proof.
  intros Hc Hknown. induction 1 as [|batch batches Hb _ (itemss & Hitemss)].
  - exists []. constructor.
  - destruct (fetched_known self batch) as [items Hitems]; [done..|].
    exists (items :: itemss). by constructor.
Qed.

Lemma fetch_fetched (self : TextDataset) (batch : list nat) (items : list Item) :
  fetched self batch items → fetch self batch = Ok items.
Proof. induction 1 as [|idx item batch items Hitem _ IH]; simpl; [done|]. by rewrite Hitem, IH. Qed.

Lemma move_to_available (available : gset string) (dev : string) (items : list Item) :
  dev ∈ available →
  move_to available dev (default_collate items) = Ok (batch_on dev items).
Proof. intros Hdev. unfold move_to, to. by rewrite !decide_True by done. Qed.

Lemma move_to_unavailable (available : gset string) (dev : string) (data_dict : Batch) :
  dev ∉ available → move_to available dev data_dict = Raise RuntimeError.
Proof. intros Hdev. unfold move_to, to. by rewrite !decide_False by done. Qed.

Lemma yield_batches_fetched (available : gset string) (self : TextDataset) (dev : string)
    (batches : list (list nat)) (itemss : list (list Item)) :
  dev ∈ available →
  Forall2 (fetched self) batches itemss →
  yield_batches available self dev batches = (batch_on dev <$> itemss, None).
Proof.
  intros Hdev. induction 1 as [|batch items batches itemss Hitems _ IH]; simpl; [done|].
  by rewrite (fetch_fetched _ _ _ Hitems), move_to_available, IH.
Qed.

Lemma sampler_devices (shuffle : bool) (n : nat) (rs : RandomState) :
  devices (sampler shuffle n rs).2 = devices rs.
Proof. by destruct shuffle. Qed.

Lemma sampler_order (shuffle : bool) (n : nat) (rs : RandomState) :
  (sampler shuffle n rs).1 ≡ₚ seq 0 n
  ∧ (shuffle = false → (sampler shuffle n rs).1 = seq 0 n).
Proof. destruct shuffle; simpl; [|done]. split; [apply draws_perm|done]. Qed.

Lemma generate_batches_order (self : TextDataset) (batch_size : nat) (shuffle drop_last : bool)
    (dev : string) (rs : RandomState) :
  (0 < batch_size)%nat →
  (generate_batches self (Z.of_nat batch_size) shuffle drop_last dev rs).1
  = yield_batches (devices rs) self dev
      (BatchSampler batch_size drop_last [] (sampler shuffle (__len__ self) rs).1).
Proof.
  intros Hb. unfold generate_batches.
  destruct (Z.leb_spec (Z.of_nat batch_size) 0); [lia|].
  pose proof (sampler_devices shuffle (__len__ self) rs) as Hdev.
  destruct (sampler shuffle (__len__ self) rs) as [order rs']. simpl in *.
  by rewrite Nat2Z.id, Hdev.
Qed.

Lemma batch_sizes_on (dev : string) (itemss : list (list Item)) :
  batch_sizes (batch_on dev <$> itemss) = length <$> itemss.
Proof.
  unfold batch_sizes. rewrite <-list_fmap_compose. apply list_fmap_ext.
  intros _ items _. simpl. by rewrite length_fmap.
Qed.

(** The batches of one pass, for any positive batch size: the sample order
    [order] is cut into [full] chunks of [batch_size] indices and a shorter
    [rest]; with [drop_last] the generator yields the batches of the full
    chunks, without it those and, if [rest] is not empty, the batch of
    [rest]. *)
Lemma generate_batches_general (self : TextDataset) (rs : RandomState) (batch_size : nat)
    (shuffle : bool) (dev : string) :
  consistent self → labels_known self → dev ∈ devices rs → (0 < batch_size)%nat →
  ∃ order full rest itemss last,
    order ≡ₚ seq 0 (__len__ self)
    ∧ (shuffle = false → order = seq 0 (__len__ self))
    ∧ order = concat full ++ rest
    ∧ Forall (λ c, length c = batch_size) full
    ∧ (length rest < batch_size)%nat
    ∧ Forall2 (fetched self) full itemss
    ∧ fetched self rest last
    ∧ (generate_batches self (Z.of_nat batch_size) shuffle true dev rs).1
      = (batch_on dev <$> itemss, None)
    ∧ (generate_batches self (Z.of_nat batch_size) shuffle false dev rs).1
      = (batch_on dev <$> itemss ++ match last with [] => [] | _ :: _ => [last] end,
         None).
Proof.
  intros Hc Hknown Hdev Hb. rewrite !generate_batches_order by done.
  destruct (sampler_order shuffle (__len__ self) rs) as [Hperm Hseq].
  set (order := (sampler shuffle (__len__ self) rs).1) in *.
  destruct (BatchSampler_chunks batch_size [] order Hb) as (full & rest & -> & -> & Hfull & Hcat & Hrest);
    [simpl; lia|].
  simpl in Hcat.
  assert (Hin : Forall (λ idx, idx < __len__ self)%nat order).
  { rewrite Hperm. apply Forall_seq. lia. }
  rewrite Hcat in Hin. apply Forall_app in Hin as [Hin_full Hin_rest].
  apply Forall_concat in Hin_full.
  destruct (fetched_all_known self full) as [itemss Hitemss]; [done..|].
  destruct (fetched_known self rest) as [last Hlast]; [done..|].
  exists order, full, rest, itemss, last.
  repeat split; [done..| |].
  - by apply yield_batches_fetched.
  - apply yield_batches_fetched; [done|]. apply Forall2_app; [done|].
    destruct Hlast; repeat constructor; done.
Qed.

(** C7: over a split of 10 rows, [generate_batches] with batch size 4 yields
    exactly two batches of 4 items with [drop_last] and exactly three, of 4,
    4 and 2 items, without; in general the pass ends, and its batches hold
    the items at the positions of one sample order of the split, cut into
    chunks of [batch_size], the shorter last chunk being left out exactly
    when [drop_last] is set. The labels of the split are assumed known to
    the vectorizer, so that no item fails, and the device is assumed to be
    one of the machine, as the default "cpu" is, so that no transfer fails. *)
Theorem generate_batches_chunks (self : TextDataset) (rs : RandomState) (batch_size : nat)
    (shuffle : bool) (dev : string) :
  is_instance self → labels_known self → dev ∈ devices rs → (0 < batch_size)%nat →
  (__len__ self = 10%nat →
   (∃ b1 b2,
      (generate_batches self 4 shuffle true dev rs).1 = ([b1; b2], None)
      ∧ batch_sizes [b1; b2] = [4; 4]%nat)
   ∧ (∃ b1 b2 b3,
      (generate_batches self 4 shuffle false dev rs).1 = ([b1; b2; b3], None)
      ∧ batch_sizes [b1; b2; b3] = [4; 4; 2]%nat))
  ∧ ∃ order full rest itemss last,
      order ≡ₚ seq 0 (__len__ self)
      ∧ (shuffle = false → order = seq 0 (__len__ self))
      ∧ order = concat full ++ rest
      ∧ Forall (λ c, length c = batch_size) full
      ∧ (length rest < batch_size)%nat
      ∧ Forall2 (fetched self) full itemss
      ∧ fetched self rest last
      ∧ (generate_batches self (Z.of_nat batch_size) shuffle true dev rs).1
        = (batch_on dev <$> itemss, None)
      ∧ (generate_batches self (Z.of_nat batch_size) shuffle false dev rs).1
        = (batch_on dev <$> itemss ++ match last with [] => [] | _ :: _ => [last] end,
           None).
Proof.
  intros Hc%instance_consistent Hknown Hdev Hb.
  split; [|by apply generate_batches_general].
  intros Hten.
  destruct (generate_batches_general self rs 4 shuffle dev Hc Hknown Hdev)
    as (order & full & rest & itemss & last & Hperm & _ & Hcat & Hfull & Hrest
        & Hitemss & Hlast & Htrue & Hfalse); [lia|].
  change (Z.of_nat 4) with 4 in *. rewrite Htrue, Hfalse.
  assert (Hlen : length order = 10%nat) by (by rewrite Hperm, length_seq).
  rewrite Hcat, length_app, (concat_length_full 4) in Hlen by done.
  assert (Hk : length full = 2%nat) by lia.
  assert (Hr : length rest = 2%nat) by lia.
  destruct full as [|c1 [|c2 [|]]]; try done.
  apply Forall_cons in Hfull as [Hc1 Hfull]. apply Forall_cons in Hfull as [Hc2 _].
  apply Forall2_cons_inv_l in Hitemss as (i1 & itemss' & Hi1 & Hitemss & ->).
  apply Forall2_cons_inv_l in Hitemss as (i2 & itemss'' & Hi2 & Hitemss & ->).
  apply Forall2_nil_inv_l in Hitemss as ->.
  apply Forall2_length in Hi1, Hi2. pose proof (Forall2_length _ _ _ Hlast) as Hl.
  split.
  - exists (batch_on dev i1), (batch_on dev i2). split; [done|].
    change [batch_on dev i1; batch_on dev i2] with (batch_on dev <$> [i1; i2]).
    rewrite batch_sizes_on. simpl. by rewrite <-Hi1, <-Hi2, Hc1, Hc2.
  - destruct last as [|item last]; [simpl in Hl; lia|].
    exists (batch_on dev i1), (batch_on dev i2), (batch_on dev (item :: last)).
    split; [done|].
    change [batch_on dev i1; batch_on dev i2; batch_on dev (item :: last)]
      with (batch_on dev <$> [i1; i2; item :: last]).
    rewrite batch_sizes_on. cbn [fmap list_fmap]. by rewrite <-Hi1, <-Hi2, <-Hl, Hc1, Hc2, Hr.
Qed.

Lemma eighteen_is_instance : is_instance eighteen.
Proof. apply built_instance. by vm_compute. Qed.

Lemma eighteen_labels_known : labels_known eighteen.
Proof. by_evaluation. Qed.

Lemma generate_batches_chunks_witness :
  ∃ b1 b2,
    (generate_batches eighteen 4 true true "cpu" reversing).1 = ([b1; b2], None)
    ∧ batch_sizes [b1; b2] = [4; 4]%nat.
Proof.
  destruct (generate_batches_chunks eighteen reversing 4 true "cpu"
              eighteen_is_instance eighteen_labels_known (cpu_device reversing)
              ltac:(lia)) as [Hten _].
  destruct Hten as [Hdrop _]; [by vm_compute|]. exact Hdrop.
Defined.

(** ** The factory *)

Lemma foldl_max_spec (rest : list Row) (a : nat) :
  (a ≤ foldl (λ m r, Nat.max m (String.length (text r))) a rest)%nat
  ∧ (∀ r, r ∈ rest →
       (String.length (text r) ≤ foldl (λ m r, Nat.max m (String.length (text r))) a rest)%nat)
  ∧ (foldl (λ m r, Nat.max m (String.length (text r))) a rest = a
     ∨ ∃ r, r ∈ rest
         ∧ String.length (text r) = foldl (λ m r, Nat.max m (String.length (text r))) a rest).
Proof.
  revert a. induction rest as [|row rest IH]; intros a; simpl.
  - split; [done|]. split; [by intros r ?%elem_of_nil|by left].
  - destruct (IH (Nat.max a (String.length (text row)))) as (Hle & Hall & Hex).
    split; [lia|]. split.
    + intros r [->|Hr]%elem_of_cons; [lia|by apply Hall].
    + destruct Hex as [Heq|(r & Hr & Heq)].
      * rewrite Heq.
        destruct (Nat.max_spec a (String.length (text row))) as [[_ Hm]|[_ Hm]];
          [|by left].
        right. exists row. split; [by left|done].
      * right. exists r. split; [by right|done].
Qed.

Lemma str_len_max_is_max (df : list Row) (m : nat) :
  (∃ r, r ∈ df ∧ String.length (text r) = m) →
  (∀ r, r ∈ df → (String.length (text r) ≤ m)%nat) →
  str_len_max df = Some m.
Proof.
  intros (r0 & Hr0 & Hm) Hall. destruct df as [|row rest]; [by apply elem_of_nil in Hr0|].
  simpl. f_equal.
  destruct (foldl_max_spec rest (String.length (text row))) as (Hle & Hrest & Hex).
  apply Nat.le_antisymm.
  - destruct Hex as [->|(r & Hr & <-)]; apply Hall; [by left|by right].
  - rewrite <-Hm. apply elem_of_cons in Hr0 as [->|Hr0]; [done|by apply Hrest].
Qed.

Lemma read_csv_rows (records : list (string * string)) (row : Row) :
  row ∈ read_csv records ↔
  ∃ i r, records !! i = Some r ∧ row = {| index := i; text := r.1; label := r.2 |}.
Proof.
  unfold read_csv. rewrite list_elem_of_lookup. split.
  - intros (i & Hi). rewrite list_lookup_imap in Hi.
    destruct (records !! i) as [r|] eqn:Hr; [|done].
    injection Hi as <-. by exists i, r.
  - intros (i & r & Hr & ->). exists i. by rewrite list_lookup_imap, Hr.
Qed.

Lemma seq_len_bound_max (records : list (string * string)) (m : nat) :
  is_max_text_length records m →
  seq_len_bound (read_csv records) = Some (if (1000 <? m)%nat then 359%nat else m).
Proof.
  intros [(r & Hr & Hm) Hall]. unfold seq_len_bound.
  rewrite (str_len_max_is_max _ m); [by destruct (1000 <? m)%nat| |].
  - apply list_elem_of_lookup in Hr as [i Hi].
    exists {| index := i; text := r.1; label := r.2 |}. split; [|done].
    apply read_csv_rows. by exists i, r.
  - intros row (i & r' & Hi & ->)%read_csv_rows. simpl.
    apply Hall. by eapply list_elem_of_lookup_2.
Qed.

(** C8: the factory hands the vectorizer factory the length of the longest
    text of the file as the sequence length, and 359 in its place whenever
    that length is more than 1000; the instance it returns holds the
    vectorizer made with that bound. *)
Theorem factory_seq_len (from_dataframe : list Row → string → option nat → TextVectorizer)
    (text_csv : list (string * string)) (vectorizer_mode : string)
    (corpus : gmap string (list string)) (rs : RandomState) (m : nat) :
  is_max_text_length text_csv m →
  load_dataset_and_make_vectorizer from_dataframe text_csv vectorizer_mode corpus rs
  = __init__ (read_csv text_csv)
      (from_dataframe (read_csv text_csv) vectorizer_mode
         (Some (if (1000 <? m)%nat then 359%nat else m)))
      "english" corpus rs
  ∧ ((1000 < m)%nat → seq_len_bound (read_csv text_csv) = Some 359%nat)
  ∧ ((m ≤ 1000)%nat → seq_len_bound (read_csv text_csv) = Some m)
  ∧ ∀ self rs',
      load_dataset_and_make_vectorizer from_dataframe text_csv vectorizer_mode corpus rs
      = (Ok self, rs') →
      _vectorizer self
      = from_dataframe (read_csv text_csv) vectorizer_mode
          (Some (if (1000 <? m)%nat then 359%nat else m)).
Proof.
  intros Hmax. unfold load_dataset_and_make_vectorizer.
  rewrite (seq_len_bound_max _ _ Hmax). split; [done|].
  split; [|split].
  - intros Hm. by apply Nat.ltb_lt in Hm as ->.
  - intros Hm. by apply Nat.ltb_ge in Hm as ->.
  - intros self rs' Hinit.
    by apply init_Ok in Hinit as (? & ? & ? & _ & _ & _ & -> & _).
Qed.

Lemma long_file_max : is_max_text_length long_file 1001.
Proof.
  split.
  - eexists. split; [right; left|]. by vm_compute.
  - intros r Hr. apply Nat.leb_le.
    repeat (apply elem_of_cons in Hr as [->|Hr]; [by vm_compute|]).
    by apply elem_of_nil in Hr.
Qed.

Lemma factory_seq_len_witness :
  seq_len_bound (read_csv long_file) = Some 359%nat.
Proof.
  apply (factory_seq_len (λ _ _ _, counting) long_file "onehot" english reversing 1001
           long_file_max).
  apply Nat.ltb_lt. by vm_compute.
Defined.

(** * Further properties of the class *)

(** ** Construction: which tables it accepts, and the sizes it produces *)

Lemma validate_raises (n : nat) (q : Q) (e : error) :
  _validate_shuffle_split n q = Raise e → e = ValueError.
Proof.
  unfold _validate_shuffle_split.
  destruct (Qle_bool q 0 || Qle_bool 1 q); [by intros [= <-]|].
  destruct (_ =? 0)%nat; [by intros [= <-]|done].
Qed.

Lemma train_test_split_raises {A} (X : list A) (q : Q) (rs rs' : RandomState) (e : error) :
  train_test_split X q rs = (Raise e, rs') →
  e = ValueError ∧ _validate_shuffle_split (length X) q = Raise ValueError.
Proof.
  intros Hsplit.
  destruct (_validate_shuffle_split (length X) q) as [[n_train n_test]|e'] eqn:Hv.
  - destruct (train_test_split_total X q rs _ _ Hv) as (train & test & rs1 & Hok).
    rewrite Hok in Hsplit. discriminate.
  - pose proof (validate_raises _ _ _ Hv) as ->.
    unfold train_test_split in Hsplit. rewrite Hv in Hsplit. by injection Hsplit as <- _.
Qed.

Lemma validate_fifth_small (n : nat) :
  (n < 2)%nat → _validate_shuffle_split n (1 # 5) = Raise ValueError.
Proof.
  intros Hn. unfold _validate_shuffle_split. rewrite ceiling_fifth. simpl orb. cbv iota.
  destruct n as [|[|n]]; [done..|lia].
Qed.

Lemma validate_quarter_small (n : nat) :
  (n < 2)%nat → _validate_shuffle_split n (1 # 4) = Raise ValueError.
Proof.
  intros Hn. unfold _validate_shuffle_split. rewrite ceiling_quarter. simpl orb. cbv iota.
  destruct n as [|[|n]]; [done..|lia].
Qed.

(** The sizes of the partitions of a constructed instance. *)
Lemma init_sizes (text_data : list Row) (vec : TextVectorizer) (language : string)
    (corpus : gmap string (list string)) (rs rs' : RandomState) (self : TextDataset) :
  __init__ text_data vec language corpus rs = (Ok self, rs') →
  length (_test_data self) = ((length text_data + 4) / 5)%nat
  ∧ length (_val_data self)
    = ((length text_data - length (_test_data self) + 3) / 4)%nat
  ∧ (length (_train_data self) + length (_val_data self) + length (_test_data self)
     = length text_data)%nat
  ∧ length (_train_data self) ≠ 0%nat.
Proof.
  intros (train_val & rs1 & words & H1 & H2 & _)%init_Ok.
  apply train_test_split_Ok in H1 as (_ & Ht1 & Hs1 & _).
  apply train_test_split_Ok in H2 as (_ & Ht2 & Hs2 & Hne).
  rewrite ceiling_fifth in Ht1. rewrite ceiling_quarter in Ht2.
  assert (Htv : length train_val = (length text_data - length (_test_data self))%nat) by lia.
  rewrite Htv in Ht2. repeat split; [done..|lia|done].
Qed.

Lemma init_small (text_data : list Row) (vec : TextVectorizer) (language : string)
    (corpus : gmap string (list string)) (rs : RandomState) :
  (length text_data < 3)%nat →
  (__init__ text_data vec language corpus rs).1 = Raise ValueError.
Proof.
  intros Hn. unfold __init__.
  destruct (train_test_split text_data (1 # 5) rs) as [[[train_val test]|e] rs1] eqn:H1.
  - apply train_test_split_Ok in H1 as (_ & Ht & Hs & Hne).
    rewrite ceiling_fifth in Ht.
    assert (Hm : (length train_val < 2)%nat).
    { pose proof (Nat.div_mod_eq (length text_data + 4) 5).
      pose proof (Nat.mod_upper_bound (length text_data + 4) 5). lia. }
    destruct (train_test_split train_val (1 # 4) rs1) as [[[train val]|e] rs2] eqn:H2.
    + apply train_test_split_Ok in H2 as (_ & Hv & Hs2 & Hne2).
      rewrite ceiling_quarter in Hv.
      pose proof (Nat.div_mod_eq (length train_val + 3) 4).
      pose proof (Nat.mod_upper_bound (length train_val + 3) 4). lia.
    + by apply train_test_split_raises in H2 as [-> _].
  - by apply train_test_split_raises in H1 as [-> _].
Qed.

Lemma init_no_language (text_data : list Row) (vec : TextVectorizer) (language : string)
    (corpus : gmap string (list string)) (rs : RandomState) :
  (3 ≤ length text_data)%nat → corpus !! language = None →
  (__init__ text_data vec language corpus rs).1 = Raise ResourceUnavailable.
Proof.
  intros Hn Hlang. unfold __init__.
  destruct (train_test_split_total text_data (1 # 5) rs _ _
              (validate_fifth (length text_data) ltac:(lia)))
    as (train_val & test & rs1 & H1).
  rewrite H1. apply train_test_split_Ok in H1 as (_ & Ht & Hs & _).
  rewrite ceiling_fifth in Ht.
  assert (Hm : (2 ≤ length train_val)%nat).
  { pose proof (Nat.div_mod_eq (length text_data + 4) 5).
    pose proof (Nat.mod_upper_bound (length text_data + 4) 5). lia. }
  destruct (train_test_split_total train_val (1 # 4) rs1 _ _ (validate_quarter _ Hm))
    as (train & val & rs2 & H2).
  by rewrite H2, Hlang.
Qed.

(** X1: [__init__] raises ValueError for every table of fewer than three
    rows, whatever the language; for a table of three rows or more it raises
    ResourceUnavailable when the corpus lacks the language and returns an
    instance otherwise. *)
Theorem init_outcome (text_data : list Row) (vec : TextVectorizer) (language : string)
    (corpus : gmap string (list string)) (rs : RandomState) :
  ((length text_data < 3)%nat →
   (__init__ text_data vec language corpus rs).1 = Raise ValueError)
  ∧ ((3 ≤ length text_data)%nat → corpus !! language = None →
     (__init__ text_data vec language corpus rs).1 = Raise ResourceUnavailable)
  ∧ ((3 ≤ length text_data)%nat → is_Some (corpus !! language) →
     ∃ self, (__init__ text_data vec language corpus rs).1 = Ok self).
Proof.
  split; [apply init_small|]. split; [apply init_no_language|].
  intros Hn Hlang.
  destruct (init_total text_data vec language corpus rs Hn Hlang) as (self & rs' & ->).
  by exists self.
Qed.

(** X2: in a constructed instance no partition is empty, and the validation
    partition is never larger than the test partition, nor the test partition
    larger than the train partition. *)
Theorem init_partitions_ordered (text_data : list Row) (vec : TextVectorizer)
    (language : string) (corpus : gmap string (list string)) (rs rs' : RandomState)
    (self : TextDataset) :
  __init__ text_data vec language corpus rs = (Ok self, rs') →
  (1 ≤ length (_val_data self)
   ∧ length (_val_data self) ≤ length (_test_data self)
   ∧ length (_test_data self) ≤ length (_train_data self))%nat.
Proof.
  intros (Ht & Hv & Hs & Hne)%init_sizes.
  revert Ht Hv Hs Hne.
  generalize (length text_data) (length (_train_data self))
    (length (_val_data self)) (length (_test_data self)).
  intros n a b c -> -> Hs Hne.
  pose proof (Nat.div_mod_eq (n + 4) 5).
  pose proof (Nat.mod_upper_bound (n + 4) 5).
  pose proof (Nat.div_mod_eq (n - (n + 4) `div` 5 + 3) 4).
  pose proof (Nat.mod_upper_bound (n - (n + 4) `div` 5 + 3) 4).
  lia.
Qed.

Lemma init_partitions_ordered_witness :
  (1 ≤ length (_val_data seven)
   ∧ length (_val_data seven) ≤ length (_test_data seven)
   ∧ length (_test_data seven) ≤ length (_train_data seven))%nat.
Proof. exact (init_partitions_ordered _ _ _ _ _ _ _ init_seven). Defined.

(** X3: the sizes of the partitions stay within rounding of 20, 20 and 60
    percent of the input: five times the test size is between [n] and
    [n + 4], five times the validation size between [n - 1] and [n + 3], and
    five times the train size between [3n - 7] and [3n + 1]. *)
Theorem init_partitions_near_60_20_20 (text_data : list Row) (vec : TextVectorizer)
    (language : string) (corpus : gmap string (list string)) (rs rs' : RandomState)
    (self : TextDataset) :
  __init__ text_data vec language corpus rs = (Ok self, rs') →
  (length text_data ≤ 5 * length (_test_data self) ≤ length text_data + 4
   ∧ length text_data ≤ 5 * length (_val_data self) + 1
   ∧ 5 * length (_val_data self) ≤ length text_data + 3
   ∧ 3 * length text_data ≤ 5 * length (_train_data self) + 7
   ∧ 5 * length (_train_data self) ≤ 3 * length text_data + 1)%nat.
Proof.
  intros (Ht & Hv & Hs & Hne)%init_sizes.
  revert Ht Hv Hs Hne.
  generalize (length text_data) (length (_train_data self))
    (length (_val_data self)) (length (_test_data self)).
  intros n a b c -> -> Hs Hne.
  pose proof (Nat.div_mod_eq (n + 4) 5).
  pose proof (Nat.mod_upper_bound (n + 4) 5).
  pose proof (Nat.div_mod_eq (n - (n + 4) `div` 5 + 3) 4).
  pose proof (Nat.mod_upper_bound (n - (n + 4) `div` 5 + 3) 4).
  lia.
Qed.

Lemma init_partitions_near_60_20_20_witness :
  (length (read_csv reviews) ≤ 5 * length (_test_data seven)
     ≤ length (read_csv reviews) + 4)%nat.
Proof.
  exact (proj1 (init_partitions_near_60_20_20 _ _ _ _ _ _ _ init_seven)).
Defined.

(** ** The active split *)

Lemma partition_same_contents (a b : TextDataset) (split : string) :
  same_contents a b → partition a split = partition b split.
Proof. intros (_ & Htr & Hv & Hte & _). unfold partition. by rewrite Htr, Hv, Hte. Qed.

Lemma set_split_observes (split : string) (self : TextDataset) :
  consistent self → observes self → observes (set_split split self).2.
Proof.
  intros Hc [[s Hs] Hname].
  destruct (partition self split) as [data|] eqn:Hp.
  - rewrite (set_split_Some _ _ _ Hc Hp). simpl. unfold observes, partition in *. simpl.
    split; [by exists split|]. intros data'. rewrite Hp. by intros [= <-].
  - rewrite (set_split_None _ _ Hc Hp). simpl. unfold observes, partition in *. simpl.
    split; [by exists s|]. intros data'. by rewrite Hp.
Qed.

Lemma run_calls_observes (cs : list call) (self : TextDataset) (rs : RandomState) :
  consistent self → observes self → observes (run_calls cs (self, rs)).2.1.
Proof.
  revert self rs. induction cs as [|c cs IH]; intros self rs Hc Ho; [done|].
  rewrite run_calls_cons.
  destruct (run_call c (self, rs)) as [a [self1 rs1]] eqn:Hrun. simpl.
  destruct (run_call_self c self rs) as [H|(split & _ & H)];
    rewrite Hrun in H; simpl in H; subst self1; [by apply IH|].
  apply IH; [by apply set_split_consistent|by apply set_split_observes].
Qed.

Lemma instance_nonempty (self : TextDataset) (split : string) (data : list Row) :
  is_instance self → partition self split = Some data → (0 < length data)%nat.
Proof.
  intros (text_data & vec & language & corpus & rs & self0 & rs0 & cs & rs1 & Hinit & Hrun) Hp.
  pose proof (run_calls_same_contents cs self0 rs0) as Hsame.
  rewrite Hrun in Hsame. simpl in Hsame.
  rewrite (partition_same_contents _ _ _ Hsame) in Hp.
  pose proof (init_sizes _ _ _ _ _ _ _ Hinit) as (Ht & Hv & Hs & Hne).
  assert (Hord : (1 ≤ length (_val_data self0) ∧ 1 ≤ length (_test_data self0))%nat).
  { pose proof (Nat.div_mod_eq (length text_data + 4) 5).
    pose proof (Nat.mod_upper_bound (length text_data + 4) 5).
    pose proof (Nat.div_mod_eq (length text_data - length (_test_data self0) + 3) 4).
    pose proof (Nat.mod_upper_bound (length text_data - length (_test_data self0) + 3) 4).
    lia. }
  unfold partition in Hp. repeat case_decide; simplify_eq; lia.
Qed.

(** X4: at every moment of an instance's life the active table is one of the
    three partitions, [__len__] is its row count and is positive, and the
    stored split name, if it is a valid one, names that table. *)
Theorem instance_observes_partition (self : TextDataset) :
  is_instance self →
  (∃ split, partition self split = Some (_target_data self))
  ∧ __len__ self = length (_target_data self)
  ∧ (0 < __len__ self)%nat
  ∧ ∀ data, partition self (_target_split self) = Some data → data = _target_data self.
Proof.
  intros Hi. pose proof (instance_consistent _ Hi) as [Hdict Hsize].
  assert (Ho : observes self).
  { destruct Hi as (text_data & vec & language & corpus & rs & self0 & rs0 & cs & rs1
                    & Hinit & Hrun).
    apply init_Ok in Hinit as (? & ? & ? & _ & _ & _ & _ & _ & Hc & Hsplit & Hdata).
    pose proof (run_calls_observes cs self0 rs0 Hc) as Hrc.
    rewrite Hrun in Hrc. apply Hrc. unfold observes. rewrite Hsplit, Hdata.
    unfold partition. simpl. split; [by exists "train"|by intros data [= <-]]. }
  destruct Ho as [[split Hsplit] Hname].
  split; [by exists split|]. split; [done|]. split; [|done].
  unfold __len__. rewrite Hsize. by eapply instance_nonempty.
Qed.

Lemma instance_observes_partition_witness :
  __len__ (set_split stale_name seven).2 = length (_target_data (set_split stale_name seven).2)
  ∧ (0 < __len__ (set_split stale_name seven).2)%nat.
Proof.
  assert (Hi : is_instance (set_split stale_name seven).2).
  { exists (read_csv reviews), counting, "english", english, reversing, seven,
      (__init__ (read_csv reviews) counting "english" english reversing).2,
      [call_set_split stale_name],
      (__init__ (read_csv reviews) counting "english" english reversing).2.
    split; [exact init_seven|]. by vm_compute. }
  destruct (instance_observes_partition _ Hi) as (_ & Hlen & Hpos & _).
  split; [exact Hlen | exact Hpos].
Defined.

Lemma run_calls_snoc (cs : list call) (c : call) (st : TextDataset * RandomState) :
  (run_calls (cs ++ [c]) st).2 = (run_call c (run_calls cs st).2).2.
Proof.
  revert st. induction cs as [|c' cs IH]; intros st.
  - simpl. destruct (run_call c st) as [a st1]. done.
  - change ((c' :: cs) ++ [c]) with (c' :: (cs ++ [c])).
    by rewrite !run_calls_cons, IH.
Qed.

Lemma set_split_instance (split : string) (self : TextDataset) :
  is_instance self → is_instance (set_split split self).2.
Proof.
  intros (text_data & vec & language & corpus & rs & self0 & rs0 & cs & rs1 & Hinit & Hrun).
  exists text_data, vec, language, corpus, rs, self0, rs0, (cs ++ [call_set_split split]), rs1.
  split; [done|]. rewrite run_calls_snoc, Hrun. simpl.
  by destruct (set_split split self).
Qed.

Lemma getitem_target (a b : TextDataset) (i : Z) :
  _target_data a = _target_data b → _stopwords a = _stopwords b →
  _vectorizer a = _vectorizer b → __getitem__ a i = __getitem__ b i.
Proof. intros H1 H2 H3. unfold __getitem__. by rewrite H1, H2, H3. Qed.

(** X5: a [set_split] that fails leaves the instance serving the partition
    it served before: [__len__] and [__getitem__] at every index answer as
    they did, although the stored split name is now the invalid one; the
    object stays a usable instance. *)
Theorem failed_set_split_keeps_view (self : TextDataset) (name : string) :
  is_instance self →
  name ∉ ["train"; "val"; "test"] →
  _target_split (set_split name self).2 = name
  ∧ __len__ (set_split name self).2 = __len__ self
  ∧ (∀ i, __getitem__ (set_split name self).2 i = __getitem__ self i)
  ∧ is_instance (set_split name self).2.
Proof.
  intros Hi Hname. pose proof (instance_consistent _ Hi) as Hc.
  split; [|split; [|split]]; [..|by apply set_split_instance];
    rewrite set_split_None; try done;
    apply eq_None_not_Some; by rewrite partition_names.
Qed.

Lemma failed_set_split_keeps_view_witness :
  _target_split (set_split stale_name seven).2 = stale_name
  ∧ __len__ (set_split stale_name seven).2 = __len__ seven.
Proof.
  destruct (failed_set_split_keeps_view seven stale_name seven_is_instance)
    as (Hname & Hlen & _); [by_evaluation|].
  split; [exact Hname | exact Hlen].
Defined.

(** X6: of two [set_split] calls in a row the second decides, when its name
    is valid: the result and the object are those of the second call alone,
    whatever the first name was. *)
Theorem set_split_last_wins (self : TextDataset) (before split : string) :
  is_instance self →
  split ∈ ["train"; "val"; "test"] →
  set_split split (set_split before self).2 = set_split split self.
Proof.
  intros Hc%instance_consistent [data Hp]%(partition_names self).
  pose proof (set_split_consistent before self Hc) as Hc1.
  pose proof (set_split_same_contents before self) as Hsame.
  rewrite (set_split_Some _ _ _ Hc Hp).
  rewrite (set_split_Some (set_split before self).2 split data Hc1)
    by (by rewrite (partition_same_contents _ _ _ Hsame)).
  destruct Hsame as (H1 & H2 & H3 & H4 & H5 & H6).
  unfold with_target, with_target_split. cbn [_vectorizer _train_data _val_data
    _test_data _stopwords _lookup_dict _target_split _target_data _target_size].
  by rewrite H1, H2, H3, H4, H5, H6.
Qed.

Lemma set_split_last_wins_witness :
  set_split "test" (set_split stale_name seven).2 = set_split "test" seven.
Proof.
  apply (set_split_last_wins seven stale_name "test" seven_is_instance). by_evaluation.
Defined.

Lemma iloc_Ok_elem (df : list Row) (i : Z) (row : Row) :
  iloc df i = Ok row → row ∈ df.
Proof.
  unfold iloc. destruct (_ || _); [done|].
  destruct (df !! _) as [row'|] eqn:Hl; [|done].
  intros [= <-]. by eapply list_elem_of_lookup_2.
Qed.

Lemma getitem_item_of (self : TextDataset) (i : Z) (row : Row) :
  iloc (_target_data self) i = Ok row → __getitem__ self i = item_of self row.
Proof. apply getitem_row. Qed.

(** X7: after [set_split(s)] with a valid name, [__getitem__] at position
    [i] serves the [i]-th row of partition [s], normalised and vectorized
    with the stopwords and the vectorizer of the instance; and whatever item
    it returns, at any index, is the item of a row of that partition. *)
Theorem getitem_after_set_split (self : TextDataset) (split : string) (data : list Row) :
  is_instance self →
  partition self split = Some data →
  (∀ (i : nat) row, data !! i = Some row →
     __getitem__ (set_split split self).2 (Z.of_nat i) = item_of self row)
  ∧ (∀ (i : Z) item, __getitem__ (set_split split self).2 i = Ok item →
     ∃ row, row ∈ data ∧ item_of self row = Ok item).
Proof.
  intros Hc%instance_consistent Hp. rewrite (set_split_Some _ _ _ Hc Hp). simpl.
  set (self' := with_target data (length data) (with_target_split split self)).
  split.
  - intros i row Hrow.
    destruct (iloc_in_range data (Z.of_nat i)) as (row' & Hrow' & Hiloc).
    { apply lookup_lt_Some in Hrow. lia. }
    rewrite Nat2Z.id, Hrow in Hrow'. injection Hrow' as <-.
    by rewrite (getitem_item_of self' _ row).
  - intros i item Hitem.
    destruct (iloc (_target_data self') i) as [row|e] eqn:Hiloc.
    + exists row. split; [by apply (iloc_Ok_elem _ i)|].
      by rewrite (getitem_item_of self' _ row) in Hitem.
    + unfold __getitem__ in Hitem. by rewrite Hiloc in Hitem.
Qed.

Lemma getitem_after_set_split_witness :
  __getitem__ (set_split "test" seven).2 (Z.of_nat 1)
  = item_of seven {| index := 5; text := "Dull and slow"; label := "neg" |}.
Proof.
  apply (proj1 (getitem_after_set_split seven "test" (_test_data seven)
                  seven_is_instance eq_refl)).
  by vm_compute.
Defined.

(** ** The normalised text *)

Lemma split_stripped_tokens (s : string) :
  Forall (λ t, t ≠ "" ∧ all_chars settled t)
    (split (re_sub not_word_nor_space "" (lower s))).
Proof. rewrite re_sub_keep. apply split_go_chars; [done|]. apply kept_lower_chars. Qed.

Lemma settled_no_space (t : string) :
  all_chars settled t → all_chars (λ c, isspace c = false) t.
Proof. apply all_chars_impl. by intros c (? & _). Qed.

(** X8: the normalised text is the single-space join of its own tokens;
    each of them is non-empty, consists of word characters that [lower]
    leaves alone, and is no stopword; so the text has no character besides
    those and the space, and no space at either end or twice in a row. *)
Theorem string_processing_shape (sw : gset string) (s : string) :
  __string_processing sw s = join " " (split (__string_processing sw s))
  ∧ Forall (λ t, t ≠ "" ∧ all_chars settled t ∧ t ∉ sw)
      (split (__string_processing sw s))
  ∧ all_chars (λ c, c = " "%char ∨ settled c) (__string_processing sw s).
Proof.
  unfold __string_processing.
  set (toks := filter (λ w, w ∉ sw) (split (re_sub not_word_nor_space "" (lower s)))).
  assert (Htoks : Forall (λ t, t ≠ "" ∧ all_chars settled t) toks)
    by apply split_kept_tokens.
  assert (Hsplit : split (join " " toks) = toks).
  { apply split_join. eapply Forall_impl; [exact Htoks|].
    intros t [? ?]. split; [done|]. by apply settled_no_space. }
  rewrite Hsplit. split; [done|]. split.
  - apply Forall_forall. intros t Ht.
    rewrite Forall_forall in Htoks. destruct (Htoks t Ht) as [? ?].
    by apply list_elem_of_filter in Ht as [? _].
  - apply all_chars_join; [by left|].
    eapply Forall_impl; [exact Htoks|]. intros t [_ Ht].
    eapply all_chars_impl; [|exact Ht]. by right.
Qed.

Lemma join_nil (toks : list string) :
  Forall (λ t, t ≠ "") toks → join " " toks = "" → toks = [].
Proof.
  intros Htoks. destruct Htoks as [|t toks Ht _]; [done|]. simpl.
  destruct toks; [done|]. destruct t; [done|discriminate].
Qed.

(** X9: the normalised text is empty exactly when every token of the
    lowercased, stripped text is a stopword, as for a text that is empty or
    holds only whitespace and punctuation. *)
Theorem string_processing_empty (sw : gset string) (s : string) :
  __string_processing sw s = ""
  ↔ Forall (λ t, t ∈ sw) (split (re_sub not_word_nor_space "" (lower s))).
Proof.
  unfold __string_processing.
  set (all := split (re_sub not_word_nor_space "" (lower s))). split.
  - intros Hjoin. apply join_nil in Hjoin.
    + apply Forall_forall. intros t Ht. destruct (decide (t ∈ sw)) as [|Hn]; [done|].
      assert (Hin : t ∈ filter (λ w, w ∉ sw) all) by (by apply list_elem_of_filter).
      rewrite Hjoin in Hin. by apply elem_of_nil in Hin.
    + eapply Forall_impl; [apply split_kept_tokens|]. by intros t [? _].
  - intros Hall. replace (filter (λ w, w ∉ sw) all) with (@nil string); [done|].
    symmetry. induction Hall as [|t l Ht _ IH]; [done|].
    by rewrite filter_cons_False by (intros Hn; by apply Hn).
Qed.

Lemma filter_without (sw : gset string) (w : string) (l : list string) :
  w ∉ l → filter (λ t, t ∉ {[w]} ∪ sw) l = filter (λ t, t ∉ sw) l.
Proof.
  induction l as [|t l IH]; [done|]. intros Hw.
  apply not_elem_of_cons in Hw as [Hne Hw]. rewrite !filter_cons, IH by done.
  destruct (decide (t ∉ sw)) as [Ht|Ht].
  - rewrite decide_True; [done|]. rewrite elem_of_union, elem_of_singleton.
    intros [Heq|Hin]; [by subst|done].
  - rewrite decide_False; [done|]. rewrite elem_of_union. tauto.
Qed.

(** X10: a stopword that has a character which is no word character, or one
    that [lower] changes (an apostrophe, a capital letter), never matches a
    token: adding it to the stopword set changes no normalised text. The
    same holds for the empty stopword. *)
Theorem unsettled_stopword_inert (sw : gset string) (w s : string) :
  ¬ all_chars settled w ∨ w = "" →
  __string_processing ({[w]} ∪ sw) s = __string_processing sw s.
Proof.
  intros Hw. unfold __string_processing. f_equal. apply filter_without.
  intros Hin. pose proof (split_stripped_tokens s) as Htoks.
  rewrite Forall_forall in Htoks. destruct (Htoks w Hin) as [Hne Hset].
  by destruct Hw.
Qed.

Lemma unsettled_stopword_inert_witness :
  __string_processing ({["don't"]} ∪ {["the"]}) "Don't stop the MUSIC"
  = __string_processing {["the"]} "Don't stop the MUSIC".
Proof.
  apply (unsettled_stopword_inert {["the"]} "don't" "Don't stop the MUSIC").
  left. vm_compute. intros (_ & _ & _ & (_ & Hquote & _) & _). discriminate Hquote.
Defined.

(** ** One pass of [generate_batches] *)

Lemma BatchSampler_covers (b : nat) (drop_last : bool) (order : list nat) :
  (0 < b)%nat →
  Forall (λ c, 1 ≤ length c ≤ b)%nat (BatchSampler b drop_last [] order)
  ∧ (∀ idx, idx ∈ concat (BatchSampler b drop_last [] order) → idx ∈ order)
  ∧ (drop_last = false → concat (BatchSampler b drop_last [] order) = order).
Proof.
  intros Hb.
  destruct (BatchSampler_chunks b [] order Hb) as (full & rest & Ht & Hf & Hfull & Hcat & Hrest);
    [simpl; lia|].
  simpl in Hcat.
  assert (Hfull' : Forall (λ c, 1 ≤ length c ≤ b)%nat full).
  { eapply Forall_impl; [exact Hfull|]. simpl. lia. }
  destruct drop_last.
  - rewrite Ht. split; [done|]. split; [|done].
    intros idx Hin. rewrite Hcat. apply elem_of_app. by left.
  - rewrite Hf.
    assert (Hc : concat (full ++ match rest with [] => [] | _ :: _ => [rest] end) = order).
    { rewrite concat_app, Hcat. f_equal. destruct rest; simpl; [done|].
      by rewrite (right_id_L [] (++)). }
    split; [|split; [by intros idx; rewrite Hc|done]].
    apply Forall_app. split; [done|]. destruct rest; [constructor|].
    apply Forall_singleton. simpl in *. lia.
Qed.

Lemma fetch_length (self : TextDataset) (batch : list nat) (items : list Item) :
  fetch self batch = Ok items → length items = length batch.
Proof.
  revert items. induction batch as [|idx batch IH]; intros items; simpl.
  - by intros [= <-].
  - destruct (__getitem__ self (Z.of_nat idx)); [|done]. simpl.
    destruct (fetch self batch) as [items'|]; [|done]. simpl.
    intros [= <-]. simpl. by rewrite (IH items').
Qed.

Lemma yield_batches_shape (available : gset string) (self : TextDataset) (dev : string)
    (b : nat) (batches : list (list nat)) :
  Forall (λ c, 1 ≤ length c ≤ b)%nat batches →
  Forall (well_formed_batch dev b) (yield_batches available self dev batches).1.
Proof.
  induction 1 as [|batch batches Hb _ IH]; simpl; [constructor|].
  destruct (fetch self batch) as [items|] eqn:Hf; [|constructor].
  destruct (decide (dev ∈ available)) as [Hdev|Hdev].
  - rewrite move_to_available by done.
    destruct (yield_batches available self dev batches) as [more stop]. simpl in *.
    constructor; [|done]. apply fetch_length in Hf.
    unfold well_formed_batch. simpl. rewrite !length_fmap. repeat split; lia.
  - rewrite move_to_unavailable by done. constructor.
Qed.

(** X11: every batch that [generate_batches] yields has both tensors on the
    requested device, as many labels as feature vectors, and between one and
    [batch_size] samples; a batch size that is not positive yields nothing,
    ends in ValueError and draws no random order. *)
Theorem yielded_batches_well_formed (self : TextDataset) (batch_size : Z)
    (shuffle drop_last : bool) (dev : string) (rs : RandomState) :
  Forall (well_formed_batch dev (Z.to_nat batch_size))
    (generate_batches self batch_size shuffle drop_last dev rs).1.1
  ∧ (batch_size ≤ 0 →
     generate_batches self batch_size shuffle drop_last dev rs
     = (([], Some ValueError), rs)).
Proof.
  unfold generate_batches. destruct (Z.leb_spec batch_size 0) as [Hle|Hlt].
  - split; [constructor|done].
  - split; [|lia].
    destruct (sampler shuffle (__len__ self) rs) as [order rs']. simpl.
    apply yield_batches_shape. apply BatchSampler_covers. lia.
Qed.

Lemma getitem_in_range (self : TextDataset) (idx : nat) :
  consistent self → (idx < __len__ self)%nat →
  ∃ row, _target_data self !! idx = Some row
    ∧ __getitem__ self (Z.of_nat idx) = item_of self row.
Proof.
  intros [_ Hsize] Hidx. unfold __len__ in Hidx. rewrite Hsize in Hidx.
  destruct (iloc_in_range (_target_data self) (Z.of_nat idx)) as (row & Hrow & Hiloc); [lia|].
  rewrite Nat2Z.id in Hrow. exists row. split; [done|]. by apply getitem_item_of.
Qed.

Lemma item_of_raises (self : TextDataset) (row : Row) (e : error) :
  item_of self row = Raise e →
  label_vocab (_vectorizer self) !! label row = None ∧ e = UnknownLabel (label row).
Proof.
  unfold item_of. destruct (label_vocab (_vectorizer self) !! label row); [done|].
  by intros [= <-].
Qed.

Lemma fetch_raises (self : TextDataset) (batch : list nat) (e : error) :
  consistent self → Forall (λ idx, idx < __len__ self)%nat batch →
  fetch self batch = Raise e →
  ∃ row, row ∈ _target_data self
    ∧ label_vocab (_vectorizer self) !! label row = None
    ∧ e = UnknownLabel (label row).
Proof.
  intros Hc. induction 1 as [|idx batch Hidx _ IH]; simpl; [done|].
  destruct (getitem_in_range self idx Hc Hidx) as (row & Hrow & ->).
  destruct (item_of self row) as [item|e'] eqn:Hitem; simpl.
  - destruct (fetch self batch) as [items|e']; [done|]. simpl.
    intros [= <-]. by apply IH.
  - intros [= <-]. apply item_of_raises in Hitem as [Hl ->].
    exists row. split; [by eapply list_elem_of_lookup_2|done].
Qed.

Lemma yield_batches_raises (available : gset string) (self : TextDataset) (dev : string)
    (batches : list (list nat)) (e : error) :
  consistent self → Forall (Forall (λ idx, idx < __len__ self)%nat) batches →
  (yield_batches available self dev batches).2 = Some e →
  (∃ row, row ∈ _target_data self
     ∧ label_vocab (_vectorizer self) !! label row = None
     ∧ e = UnknownLabel (label row))
  ∨ (e = RuntimeError ∧ dev ∉ available).
Proof.
  intros Hc. induction 1 as [|batch batches Hb _ IH]; simpl; [done|].
  destruct (fetch self batch) as [items|e'] eqn:Hf.
  - destruct (decide (dev ∈ available)) as [Hdev|Hdev].
    + rewrite move_to_available by done.
      destruct (yield_batches available self dev batches) as [more stop]. simpl in *.
      apply IH.
    + rewrite move_to_unavailable by done. simpl. intros [= <-]. by right.
  - simpl. intros [= <-]. left. by eapply fetch_raises.
Qed.

Lemma fetch_Ok_items (self : TextDataset) (batch : list nat) (items : list Item) :
  fetch self batch = Ok items →
  Forall (λ idx, is_Ok (__getitem__ self (Z.of_nat idx)) = true) batch.
Proof.
  revert items. induction batch as [|idx batch IH]; intros items; simpl; [constructor|].
  destruct (__getitem__ self (Z.of_nat idx)) eqn:Hg; [|done]. simpl.
  destruct (fetch self batch) as [items'|]; [|done]. simpl.
  intros _. constructor; [by rewrite Hg|]. by eapply IH.
Qed.

Lemma yield_batches_complete (available : gset string) (self : TextDataset)
    (dev : string) (batches : list (list nat)) :
  (yield_batches available self dev batches).2 = None →
  Forall (λ idx, is_Ok (__getitem__ self (Z.of_nat idx)) = true) (concat batches)
  ∧ (batches ≠ [] → dev ∈ available).
Proof.
  induction batches as [|batch batches IH]; simpl; [by split; [constructor|]|].
  destruct (fetch self batch) as [items|e'] eqn:Hf; [|done].
  destruct (decide (dev ∈ available)) as [Hdev|Hdev].
  - rewrite move_to_available by done.
    destruct (yield_batches available self dev batches) as [more stop]. simpl in *.
    intros Hstop. split; [|done].
    apply Forall_app. split; [by eapply fetch_Ok_items|by apply IH].
  - by rewrite move_to_unavailable by done.
Qed.

Lemma instance_len_positive (self : TextDataset) :
  is_instance self → (0 < __len__ self)%nat.
Proof.
  intros Hi. pose proof (instance_consistent _ Hi) as [Hdict Hsize].
  assert (Ho : observes self).
  { destruct Hi as (text_data & vec & language & corpus & rs & self0 & rs0 & cs & rs1
                    & Hinit & Hrun).
    apply init_Ok in Hinit as (? & ? & ? & _ & _ & _ & _ & _ & Hc & Hsplit & Hdata).
    pose proof (run_calls_observes cs self0 rs0 Hc) as Hrc.
    rewrite Hrun in Hrc. apply Hrc. unfold observes. rewrite Hsplit, Hdata.
    unfold partition. simpl. split; [by exists "train"|by intros data [= <-]]. }
  destruct Ho as [[split Hsplit] _].
  unfold __len__. rewrite Hsize. by eapply instance_nonempty.
Qed.

Lemma sampler_in_range (shuffle : bool) (n : nat) (rs : RandomState) :
  Forall (λ idx, idx < n)%nat (sampler shuffle n rs).1.
Proof.
  destruct (sampler_order shuffle n rs) as [Hperm _]. rewrite Hperm.
  apply Forall_seq. lia.
Qed.

Lemma batches_in_range (b n : nat) (drop_last : bool) (order : list nat) :
  (0 < b)%nat → Forall (λ idx, idx < n)%nat order →
  Forall (Forall (λ idx, idx < n)%nat) (BatchSampler b drop_last [] order).
Proof.
  intros Hb Horder. apply Forall_concat, Forall_forall. intros idx Hin.
  rewrite Forall_forall in Horder. apply Horder.
  by apply (BatchSampler_covers b drop_last order Hb).
Qed.

(** X12: a pass without [drop_last] ends without an exception exactly when
    every label of the active split is in the label vocabulary and the
    device is one of the machine; and whenever a pass ends in an exception,
    with or without [drop_last], it is either UnknownLabel for the label of
    a row of the active split that the vocabulary lacks, or RuntimeError for
    a device that is none of the machine. *)
Theorem pass_outcome (self : TextDataset) (batch_size : nat)
    (shuffle : bool) (dev : string) (rs : RandomState) :
  is_instance self → (0 < batch_size)%nat →
  ((generate_batches self (Z.of_nat batch_size) shuffle false dev rs).1.2 = None
   ↔ labels_known self ∧ dev ∈ devices rs)
  ∧ ∀ drop_last e,
      (generate_batches self (Z.of_nat batch_size) shuffle drop_last dev rs).1.2 = Some e →
      (∃ row, row ∈ _target_data self
         ∧ label_vocab (_vectorizer self) !! label row = None
         ∧ e = UnknownLabel (label row))
      ∨ (e = RuntimeError ∧ dev ∉ devices rs).
Proof.
  intros Hi Hb. pose proof (instance_consistent _ Hi) as Hc.
  pose proof (instance_len_positive _ Hi) as Hpos.
  split; [split|].
  - rewrite generate_batches_order by done. intros Hstop.
    apply yield_batches_complete in Hstop as [Hstop Hdev].
    pose proof (proj2 (proj2 (BatchSampler_covers batch_size false
                  (sampler shuffle (__len__ self) rs).1 Hb)) eq_refl) as Hcat.
    destruct (sampler_order shuffle (__len__ self) rs) as [Hperm _].
    split.
    + rewrite Hcat, Hperm in Hstop. rewrite Forall_forall in Hstop.
      unfold labels_known. apply Forall_lookup. intros i row Hrow.
      assert (Hi' : (i < __len__ self)%nat).
      { unfold __len__. rewrite (proj2 Hc). by eapply lookup_lt_Some. }
      destruct (getitem_in_range self i Hc Hi') as (row' & Hrow' & Hitem).
      rewrite Hrow in Hrow'. injection Hrow' as <-.
      specialize (Hstop i). rewrite Hitem in Hstop. unfold item_of in Hstop.
      destruct (label_vocab (_vectorizer self) !! label row); [done|].
      discriminate Hstop. apply elem_of_seq. lia.
    + apply Hdev. intros Hnil. rewrite Hnil in Hcat. simpl in Hcat.
      apply Permutation_length in Hperm. rewrite <-Hcat, length_seq in Hperm.
      simpl in Hperm. lia.
  - intros [Hknown Hdev].
    destruct (generate_batches_general self rs batch_size shuffle dev Hc Hknown Hdev Hb)
      as (? & ? & ? & ? & ? & _ & _ & _ & _ & _ & _ & _ & _ & ->). done.
  - intros drop_last e. rewrite generate_batches_order by done.
    apply yield_batches_raises; [done|].
    apply batches_in_range; [done|apply sampler_in_range].
Qed.

(** On a machine without accelerator a pass to "cuda" yields nothing and
    ends in RuntimeError, although every label is known. *)
Example pass_to_missing_device :
  (generate_batches eighteen 4 true true "cuda" reversing).1 = ([], Some RuntimeError).
Proof. by vm_compute. Qed.

Lemma pass_outcome_witness :
  (∃ row, row ∈ _target_data seven_positive_only
     ∧ label_vocab (_vectorizer seven_positive_only) !! label row = None
     ∧ UnknownLabel "neg" = UnknownLabel (label row))
  ∨ (UnknownLabel "neg" = RuntimeError ∧ "cpu" ∉ devices reversing).
Proof.
  apply (proj2 (pass_outcome seven_positive_only 2 false "cpu" reversing
                  seven_positive_only_is_instance ltac:(lia)) true (UnknownLabel "neg")).
  by vm_compute.
Defined.

(** X13: with every label known and a device of the machine, a pass over an
    active split of [n] rows yields [n / batch_size] batches with [drop_last]
    and that number rounded up without. *)
Theorem batch_count (self : TextDataset) (batch_size : nat) (shuffle : bool)
    (dev : string) (rs : RandomState) :
  is_instance self → labels_known self → dev ∈ devices rs → (0 < batch_size)%nat →
  length (generate_batches self (Z.of_nat batch_size) shuffle true dev rs).1.1
  = (__len__ self / batch_size)%nat
  ∧ length (generate_batches self (Z.of_nat batch_size) shuffle false dev rs).1.1
    = ((__len__ self + batch_size - 1) / batch_size)%nat.
Proof.
  intros Hc%instance_consistent Hknown Hdev Hb.
  destruct (generate_batches_general self rs batch_size shuffle dev Hc Hknown Hdev Hb)
    as (order & full & rest & itemss & last & Hperm & _ & Hcat & Hfull & Hrest
        & Hitemss & Hlast & -> & ->).
  simpl. rewrite !length_fmap, length_app.
  assert (Hn : (__len__ self = batch_size * length itemss + length last)%nat).
  { pose proof (Permutation_length Hperm) as Hlen.
    rewrite length_seq, Hcat, length_app in Hlen.
    rewrite (concat_length_full batch_size) in Hlen by done.
    by rewrite (Forall2_length _ _ _ Hitemss), (Forall2_length _ _ _ Hlast) in Hlen. }
  assert (Hl : (length last < batch_size)%nat)
    by (by rewrite <-(Forall2_length _ _ _ Hlast)).
  split.
  - by apply (Nat.div_unique _ _ _ (length last)).
  - destruct last as [|item last]; simpl in *.
    + apply (Nat.div_unique _ _ _ (batch_size - 1)); lia.
    + apply (Nat.div_unique _ _ _ (length last)); lia.
Qed.

Lemma batch_count_witness :
  length (generate_batches eighteen (Z.of_nat 4) true true "cpu" reversing).1.1
  = (__len__ eighteen / 4)%nat.
Proof.
  apply (batch_count eighteen 4 true "cpu" reversing
           eighteen_is_instance eighteen_labels_known (cpu_device reversing)). lia.
Defined.

(** ** The factory, from file to instance *)

Lemma init_permutation (text_data : list Row) (vec : TextVectorizer) (language : string)
    (corpus : gmap string (list string)) (rs rs' : RandomState) (self : TextDataset) :
  __init__ text_data vec language corpus rs = (Ok self, rs') →
  _train_data self ++ _val_data self ++ _test_data self ≡ₚ text_data.
Proof.
  intros (train_val & rs1 & words & H1 & H2 & _)%init_Ok.
  apply train_test_split_Ok in H1 as (Hp1 & _).
  apply train_test_split_Ok in H2 as (Hp2 & _).
  by rewrite (assoc (++)), Hp2.
Qed.

Lemma permutation_disjoint_rows (a b c data : list Row) :
  a ++ b ++ c ≡ₚ data → NoDup (index <$> data) →
  disjoint_rows a b ∧ disjoint_rows a c ∧ disjoint_rows b c.
Proof.
  intros Hperm Hnd. rewrite <-Hperm, !fmap_app in Hnd.
  apply NoDup_app in Hnd as (_ & Ha & Hnd).
  apply NoDup_app in Hnd as (_ & Hb & _).
  repeat split; intros r r' Hr Hr' Heq.
  - apply (Ha (index r)); [by apply list_elem_of_fmap_2|].
    apply elem_of_app. left. rewrite Heq. by apply list_elem_of_fmap_2.
  - apply (Ha (index r)); [by apply list_elem_of_fmap_2|].
    apply elem_of_app. right. rewrite Heq. by apply list_elem_of_fmap_2.
  - apply (Hb (index r)); [by apply list_elem_of_fmap_2|].
    rewrite Heq. by apply list_elem_of_fmap_2.
Qed.

(** X14: the factory raises ValueError when the loaded table has fewer than
    three rows and ResourceUnavailable when the corpus has no English
    stopwords; otherwise it returns an instance with the train partition
    active, whose three partitions share no row and carry the index labels
    0 to n-1 between them, and whose every row is the row of the loaded
    table at its index label. *)
Theorem factory_outcome (from_dataframe : list Row → string → option nat → TextVectorizer)
    (text_csv : list (string * string)) (vectorizer_mode : string)
    (corpus : gmap string (list string)) (rs : RandomState) :
  ((length text_csv < 3)%nat →
   (load_dataset_and_make_vectorizer from_dataframe text_csv vectorizer_mode corpus rs).1
   = Raise ValueError)
  ∧ ((3 ≤ length text_csv)%nat → corpus !! "english" = None →
     (load_dataset_and_make_vectorizer from_dataframe text_csv vectorizer_mode corpus rs).1
     = Raise ResourceUnavailable)
  ∧ ((3 ≤ length text_csv)%nat → is_Some (corpus !! "english") →
     ∃ self,
       (load_dataset_and_make_vectorizer from_dataframe text_csv vectorizer_mode corpus rs).1
       = Ok self
       ∧ _target_data self = train_data self
       ∧ index <$> (train_data self ++ val_data self ++ test_data self)
         ≡ₚ seq 0 (length text_csv)
       ∧ disjoint_rows (train_data self) (val_data self)
       ∧ disjoint_rows (train_data self) (test_data self)
       ∧ disjoint_rows (val_data self) (test_data self)
       ∧ ∀ row, row ∈ train_data self ++ val_data self ++ test_data self →
           read_csv text_csv !! index row = Some row).
Proof.
  unfold load_dataset_and_make_vectorizer, train_data, val_data, test_data.
  assert (Hlen : length (read_csv text_csv) = length text_csv)
    by apply length_imap.
  split; [|split].
  - intros Hn. apply init_small. by rewrite Hlen.
  - intros Hn Hlang. apply init_no_language; [by rewrite Hlen|done].
  - intros Hn Hlang.
    destruct (init_total (read_csv text_csv)
                (from_dataframe (read_csv text_csv) vectorizer_mode
                   (seq_len_bound (read_csv text_csv)))
                "english" corpus rs) as (self & rs' & Hinit); [by rewrite Hlen|done|].
    exists self. rewrite Hinit. split; [done|].
    pose proof (init_permutation _ _ _ _ _ _ _ Hinit) as Hperm.
    apply init_Ok in Hinit as (? & ? & ? & _ & _ & _ & _ & _ & _ & _ & Hdata).
    split; [done|]. split; [by rewrite Hperm, read_csv_index|].
    destruct (permutation_disjoint_rows _ _ _ _ Hperm) as (H1 & H2 & H3).
    { rewrite read_csv_index. apply NoDup_seq. }
    do 3 (split; [done|]).
    intros row Hrow. rewrite Hperm in Hrow.
    apply read_csv_rows in Hrow as (i & [t l] & Hi & ->). simpl.
    unfold read_csv. by rewrite list_lookup_imap, Hi.
Qed.
